(** * whatsapp-web-api: the session manager and its HTTP boundary

    A shallow embedding of [WhatsAppClientManager] (src/client.ts), of the
    [GET /api/qr] and [POST /api/logout] routes (src/routes/auth.ts) and of
    the [POST /api/send-message] and [POST /api/send-file] routes
    (src/routes/message.ts), with the properties of the chat-id formatter,
    the MIME resolver, the pairing-code cache, the readiness gate, the
    logout cleanup, start-up and teardown, and the routes' replies.

    Conventions.
    - A JavaScript string is a [string]: a sequence of code units.  All the
      literals the code matches against ('@g.us', '.', 'base64,', the digits,
      the table keys) are ASCII, and [toLowerCase] is modelled on the ASCII
      letters.
    - A method of the manager is a computation in the monad [M]: it reads and
      writes the manager's fields, records every call it makes to the
      transport or to the QR encoder in a trace, and either returns or throws.
      A method is modelled by the effect of its own body; what the transport's
      event handlers do is the separate transition [dispatch].
    - [console.log] and [console.error] are not modelled. *)

From Stdlib Require Import String Ascii List Bool Arith ZArith Lia.
Import ListNotations.
Open Scope string_scope.

(** ** JavaScript string primitives *)

Module JSString.

(** [s.startsWith(p)]. *)
Fixpoint startsWith (s p : string) {struct p} : bool :=
  match p, s with
  | EmptyString, _ => true
  | String _ _, EmptyString => false
  | String a p', String b s' => Ascii.eqb a b && startsWith s' p'
  end.

(** [s.includes(p)]: [p] occurs at some position of [s]. *)
Fixpoint includes (s p : string) : bool :=
  startsWith s p ||
  match s with
  | EmptyString => false
  | String _ s' => includes s' p
  end.

(** One code unit of [s.toLowerCase()]. *)
Definition toLowerCase_unit (c : ascii) : ascii :=
  let n := nat_of_ascii c in
  if ((65 <=? n) && (n <=? 90))%nat then ascii_of_nat (n + 32) else c.

(** [s.toLowerCase()]. *)
Fixpoint toLowerCase (s : string) : string :=
  match s with
  | EmptyString => EmptyString
  | String c s' => String (toLowerCase_unit c) (toLowerCase s')
  end.

(** [s.replace(/[cls]/g, rep)] for a one-character class [cls]: every code
    unit in the class is replaced by [rep], the others are kept. *)
Fixpoint replace_class_g (cls : ascii -> bool) (rep s : string) : string :=
  match s with
  | EmptyString => EmptyString
  | String c s' =>
      if cls c then rep ++ replace_class_g cls rep s'
      else String c (replace_class_g cls rep s')
  end.

(** The character class [0-9] and its complement [^0-9]. *)
Definition is_digit (c : ascii) : bool :=
  let n := nat_of_ascii c in ((48 <=? n) && (n <=? 57))%nat.

Definition non_digit (c : ascii) : bool := negb (is_digit c).

(** [s.split(sep)] for a non-empty [sep], scanning left to right: the pieces
    between the successive non-overlapping occurrences of [sep].
    [split_from sep skip s] returns the piece being read and the pieces after
    it; [skip] counts the code units of a matched separator still to pass. *)
Fixpoint split_from (sep : string) (skip : nat) (s : string)
  : string * list string :=
  match s with
  | EmptyString => (EmptyString, [])
  | String c s' =>
      match skip with
      | S k => split_from sep k s'
      | O =>
          if startsWith s sep then
            let (h, t) := split_from sep (String.length sep - 1) s' in
            (EmptyString, h :: t)
          else
            let (h, t) := split_from sep 0 s' in
            (String c h, t)
      end
  end.

(** With the empty separator JavaScript splits into single code units. *)
Fixpoint units (s : string) : list string :=
  match s with
  | EmptyString => []
  | String c s' => String c EmptyString :: units s'
  end.

Definition split (s sep : string) : list string :=
  match sep with
  | EmptyString => units s
  | String _ _ => let (h, t) := split_from sep 0 s in h :: t
  end.

(** [arr.pop()] as a value: the last element, [None] (undefined) when the
    array is empty. *)
Fixpoint pop (l : list string) : option string :=
  match l with
  | [] => None
  | [x] => Some x
  | _ :: l' => pop l'
  end.

End JSString.

Import JSString.

(** ** JavaScript values reached by a property lookup *)

(** What [obj[key]] can yield on the object literal [mimeTypes]: the string
    stored under an own key, a member inherited from [Object.prototype], or
    [undefined]. *)
Inductive Value : Type :=
| VString (s : string)
| VInherited (name : string)
| VUndefined.

(** The property names every object literal inherits from
    [Object.prototype]; each is bound to a function or an object. *)
Definition object_prototype_names : list string :=
  [ "constructor"; "__proto__"; "hasOwnProperty"; "isPrototypeOf";
    "propertyIsEnumerable"; "toLocaleString"; "toString"; "valueOf";
    "__defineGetter__"; "__defineSetter__"; "__lookupGetter__";
    "__lookupSetter__" ].

Fixpoint own_property (obj : list (string * string)) (key : string)
  : option string :=
  match obj with
  | [] => None
  | (k, v) :: obj' => if String.eqb k key then Some v else own_property obj' key
  end.

(** [obj[key]]: own properties first, then the prototype. *)
Definition get_property (obj : list (string * string)) (key : string) : Value :=
  match own_property obj key with
  | Some v => VString v
  | None =>
      if existsb (String.eqb key) object_prototype_names
      then VInherited key else VUndefined
  end.

(** Truthiness, as [||] and [!] test it. *)
Definition truthy (v : Value) : bool :=
  match v with
  | VString EmptyString => false
  | VString _ => true
  | VInherited _ => true
  | VUndefined => false
  end.

(** [a || b] on an optional string: [undefined] and [''] are falsy. *)
Definition or_string (a : option string) (b : string) : string :=
  match a with
  | None => b
  | Some EmptyString => b
  | Some x => x
  end.

(** ** The pure helpers of [WhatsAppClientManager] *)

(** [formatChatId(phone, isGroup)], client.ts lines 207-217. *)
Definition formatChatId (phone : string) (isGroup : bool) : string :=
  if isGroup then
    if includes phone "@g.us" then phone else phone ++ "@g.us"
  else
    let cleanPhone := replace_class_g non_digit "" phone in
    cleanPhone ++ "@c.us".

(** The object literal of [getMimeType], client.ts lines 286-319. *)
Definition mimeTypes : list (string * string) :=
  [ ("jpg", "image/jpeg");
    ("jpeg", "image/jpeg");
    ("png", "image/png");
    ("gif", "image/gif");
    ("webp", "image/webp");
    ("bmp", "image/bmp");
    ("svg", "image/svg+xml");
    ("pdf", "application/pdf");
    ("doc", "application/msword");
    ("docx", "application/vnd.openxmlformats-officedocument.wordprocessingml.document");
    ("xls", "application/vnd.ms-excel");
    ("xlsx", "application/vnd.openxmlformats-officedocument.spreadsheetml.sheet");
    ("ppt", "application/vnd.ms-powerpoint");
    ("pptx", "application/vnd.openxmlformats-officedocument.presentationml.presentation");
    ("txt", "text/plain");
    ("csv", "text/csv");
    ("mp3", "audio/mpeg");
    ("wav", "audio/wav");
    ("ogg", "audio/ogg");
    ("m4a", "audio/mp4");
    ("mp4", "video/mp4");
    ("avi", "video/x-msvideo");
    ("mov", "video/quicktime");
    ("wmv", "video/x-ms-wmv");
    ("zip", "application/zip");
    ("rar", "application/x-rar-compressed");
    ("7z", "application/x-7z-compressed") ].

(** [const ext = filename.split('.').pop()?.toLowerCase()]. *)
Definition extension_key (filename : string) : option string :=
  option_map toLowerCase (pop (split filename ".")).

(** [getMimeType(filename)], client.ts lines 284-322:
    [mimeTypes[ext || ''] || 'application/octet-stream']. *)
Definition getMimeType (filename : string) : Value :=
  let ext := extension_key filename in
  let found := get_property mimeTypes (or_string ext "") in
  if truthy found then found else VString "application/octet-stream".

(** ** The session manager's state *)

(** The transport handle ([Client] of whatsapp-web.js) is opaque. *)
Definition Client : Type := nat.

(** [QRCodeState], types/index.ts lines 66-69. *)
Record QRCodeState : Type := mkQRCodeState {
  qr : option string;
  timestamp : Z
}.

(** The private fields of [WhatsAppClientManager], client.ts lines 11-14. *)
Record Manager : Type := mkManager {
  client : option Client;
  qrCodeState : QRCodeState;
  isInitializing : bool;
  isReady : bool
}.

(** [{ qr: null, timestamp: 0 }]. *)
Definition cleared : QRCodeState := {| qr := None; timestamp := 0 |}.

Definition with_qrCodeState (q : QRCodeState) (this : Manager) : Manager :=
  {| client := client this; qrCodeState := q;
     isInitializing := isInitializing this; isReady := isReady this |}.

Definition with_isInitializing (b : bool) (this : Manager) : Manager :=
  {| client := client this; qrCodeState := qrCodeState this;
     isInitializing := b; isReady := isReady this |}.

Definition with_isReady (b : bool) (this : Manager) : Manager :=
  {| client := client this; qrCodeState := qrCodeState this;
     isInitializing := isInitializing this; isReady := b |}.

(** ** Transport events, client.ts lines 96-133 *)

(** The events [setupEventHandlers] listens to.  [Qr] carries the value
    [Date.now()] has when its handler runs. *)
Inductive Event : Type :=
| Qr (code : string) (now : Z)
| Authenticated
| AuthFailure (msg : string)
| Ready
| Disconnected (reason : string)
| LoadingScreen (percent : string).

(** The handler registered for each event. *)
Definition dispatch (ev : Event) (this : Manager) : Manager :=
  match ev with
  | Qr code now =>
      with_qrCodeState {| qr := Some code; timestamp := now |} this
  | Authenticated =>
      with_qrCodeState cleared this
  | AuthFailure _ =>
      with_isReady false this
  | Ready =>
      with_qrCodeState cleared
        (with_isReady true (with_isInitializing false this))
  | Disconnected _ =>
      with_qrCodeState cleared (with_isReady false this)
  | LoadingScreen _ => this
  end.

(** The events of one batch, handled in order of arrival. *)
Definition deliver (batch : list Event) (this : Manager) : Manager :=
  fold_left (fun m ev => dispatch ev m) batch this.

(** ** Effects: exceptions, calls to the outside, and the monad *)

Definition Buffer : Type := list Byte.byte.

(** What a [throw] carries: an [Error] made by this code, or whatever the
    transport or the encoder rejected with. *)
Inductive Exn : Type :=
| JsError (message : string)
| External (detail : string).

(** [error instanceof Error ? error.message : String(error)]. *)
Definition details_of (e : Exn) : string :=
  match e with
  | JsError m => m
  | External d => d
  end.

Inductive Outcome (A : Type) : Type :=
| Returned (a : A)
| Thrown (e : Exn).
Arguments Returned {A} a.
Arguments Thrown {A} e.

(** [new MessageMedia(mimetype, data, filename)].  [data] is a string at the
    type level; [None] is JavaScript's [undefined], which indexing past the
    end of an array would yield. *)
Record MessageMedia : Type := mkMessageMedia {
  media_mimetype : Value;
  media_data : option string;
  media_filename : string
}.

Inductive Content : Type :=
| Text (body : string)
| Media (media : MessageMedia).

(** The third argument of [client.sendMessage]: [None] when it is not
    passed, [Some c] for [{ caption: c }] with [c = None] for [undefined]. *)
Definition SendOptions : Type := option (option string).

(** The calls the manager makes to its collaborators. *)
Inductive Call : Type :=
| SendMessageCall (chatId : string) (content : Content) (options : SendOptions)
| LogoutCall
| ToBufferCall (text : string).

(** The collaborators' answers: the transport's [sendMessage] resolves to a
    message whose [id._serialized] is returned here, or rejects; likewise
    [logout]; [QRCode.toBuffer] resolves to the PNG bytes or rejects. *)
Record Environment : Type := mkEnvironment {
  transport_sendMessage : string -> Content -> SendOptions -> Outcome string;
  transport_logout : Outcome unit;
  QRCode_toBuffer : string -> Outcome Buffer
}.

(** The manager's fields and the calls made so far, oldest first. *)
Record World : Type := mkWorld {
  manager : Manager;
  trace : list Call
}.

Definition M (A : Type) : Type := World -> Outcome A * World.

Definition ret {A : Type} (a : A) : M A := fun w => (Returned a, w).

Definition bind {A B : Type} (m : M A) (k : A -> M B) : M B :=
  fun w =>
    match m w with
    | (Returned a, w') => k a w'
    | (Thrown e, w') => (Thrown e, w')
    end.

Definition throw {A : Type} (e : Exn) : M A := fun w => (Thrown e, w).

(** [try { body } catch (error) { handler }]. *)
Definition try_catch {A : Type} (body : M A) (handler : Exn -> M A) : M A :=
  fun w =>
    match body w with
    | (Returned a, w') => (Returned a, w')
    | (Thrown e, w') => handler e w'
    end.

(** [try { body } finally { cleanup }]: the cleanup runs on every path and
    the body's outcome is kept unless the cleanup itself throws. *)
Definition try_finally {A : Type} (body : M A) (cleanup : M unit) : M A :=
  fun w =>
    match body w with
    | (o, w') =>
        match cleanup w' with
        | (Returned _, w'') => (o, w'')
        | (Thrown e, w'') => (Thrown e, w'')
        end
    end.

Definition get_this : M Manager := fun w => (Returned (manager w), w).

Definition update_this (f : Manager -> Manager) : M unit :=
  fun w => (Returned tt, {| manager := f (manager w); trace := trace w |}).

(** Make a call and wait for its answer. *)
Definition call {A : Type} (c : Call) (answer : Outcome A) : M A :=
  fun w => (answer, {| manager := manager w; trace := trace w ++ [c] |}).

Declare Scope js_scope.
Delimit Scope js_scope with js.
Notation "x <- m ;; k" := (bind m (fun x => k))
  (at level 100, m at next level, right associativity) : js_scope.
Notation "m ;;; k" := (bind m (fun _ => k))
  (at level 100, right associativity) : js_scope.
Open Scope js_scope.

Definition is_null {A : Type} (o : option A) : bool :=
  match o with
  | None => true
  | Some _ => false
  end.

(** [!s] on a string that may be null: null and [''] are falsy. *)
Definition falsy (s : option string) : bool :=
  match s with
  | None => true
  | Some EmptyString => true
  | Some _ => false
  end.

(** [{ success: true, messageId }]. *)
Record SendResult : Type := mkSendResult {
  success : bool;
  messageId : string
}.

(** The error of the readiness gate. *)
Definition NOT_READY : Exn := JsError "Client is not ready".

(** ** The methods of [WhatsAppClientManager] *)

Section Methods.

Variable env : Environment.

(** [getQRCodeImage()], client.ts lines 139-156. *)
Definition getQRCodeImage : M (option Buffer) :=
  this <- get_this ;;
  if falsy (qr (qrCodeState this)) then ret None
  else
    let text := or_string (qr (qrCodeState this)) "" in
    try_catch
      (buffer <- call (ToBufferCall text) (QRCode_toBuffer env text) ;;
       ret (Some buffer))
      (fun _ => ret None).

(** [isClientReady()], client.ts lines 161-163. *)
Definition isClientReady : M bool :=
  this <- get_this ;; ret (isReady this).

(** [isClientInitializing()], client.ts lines 168-170. *)
Definition isClientInitializing : M bool :=
  this <- get_this ;; ret (isInitializing this).

(** [hasQRCode()], client.ts lines 175-177: [qr !== null]. *)
Definition hasQRCode : M bool :=
  this <- get_this ;; ret (negb (is_null (qr (qrCodeState this)))).

(** [sendMessage(phone, isGroup, message)], client.ts lines 222-240. *)
Definition sendMessage (phone : string) (isGroup : bool) (message : string)
  : M SendResult :=
  this <- get_this ;;
  if is_null (client this) || negb (isReady this) then throw NOT_READY
  else
    let chatId := formatChatId phone isGroup in
    try_catch
      (id <- call (SendMessageCall chatId (Text message) None)
                  (transport_sendMessage env chatId (Text message) None) ;;
       ret {| success := true; messageId := id |})
      (fun error => throw error).

(** [caption || undefined]. *)
Definition caption_or_undefined (caption : option string) : option string :=
  if falsy caption then None else caption.

(** [sendFile(phone, isGroup, filename, base64, caption?)], client.ts lines
    245-279. *)
Definition sendFile (phone : string) (isGroup : bool) (filename : string)
    (base64 : option string) (caption : option string) : M SendResult :=
  this <- get_this ;;
  if is_null (client this) || negb (isReady this) then throw NOT_READY
  else
    let chatId := formatChatId phone isGroup in
    try_catch
      (let mimeType := getMimeType filename in
       let media := Media {| media_mimetype := mimeType;
                             media_data := base64;
                             media_filename := filename |} in
       let options := Some (caption_or_undefined caption) in
       id <- call (SendMessageCall chatId media options)
                  (transport_sendMessage env chatId media options) ;;
       ret {| success := true; messageId := id |})
      (fun error => throw error).

(** [logout()], client.ts lines 327-344. *)
Definition logout : M unit :=
  this <- get_this ;;
  if is_null (client this) then throw (JsError "No client to logout")
  else
    try_finally
      (try_catch
         (call LogoutCall (transport_logout env))
         (fun error => throw error))
      (update_this (with_isReady false) ;;;
       update_this (with_qrCodeState cleared)).

(** ** The HTTP boundary *)

(** A response: [c.json(body, status)] for a failure, [c.json(response)] for
    a success, or the PNG body with its two headers. *)
Record ResponseData : Type := mkResponseData {
  data_messageId : string;
  data_to : string;
  data_isGroup : bool;
  data_filename : string
}.

Inductive Response : Type :=
| Failure (status : nat) (error : string) (details : option string)
| Success (message : string) (data : ResponseData)
| Png (body : Buffer).

(** The wait loop of the route, auth.ts lines 27-31: at most 20 sleeps of
    500 ms, left as soon as a code is cached.  [timers] gives, for each
    successive sleep, the transport events that arrive during it; past its
    end nothing arrives. *)
Fixpoint poll (remaining : nat) (timers : list (list Event)) : M unit :=
  match remaining with
  | O => ret tt
  | S k =>
      has <- hasQRCode ;;
      if has then ret tt
      else
        update_this (deliver (hd [] timers)) ;;;
        poll k (tl timers)
  end.

(** [GET /api/qr], auth.ts lines 11-63. *)
Definition qr_route (timers : list (list Event)) : M Response :=
  try_catch
    (ready <- isClientReady ;;
     if ready then
       ret (Failure 400
              "Already authenticated. Please logout first to get a new QR code."
              None)
     else
       initializing <- isClientInitializing ;;
       has <- hasQRCode ;;
       (if initializing && negb has then poll 20 timers else ret tt) ;;;
       qrImage <- getQRCodeImage ;;
       match qrImage with
       | None =>
           ret (Failure 404
                  "QR code not available. Client might be authenticated already or still initializing. Please try again in a moment."
                  None)
       | Some image => ret (Png image)
       end)
    (fun error =>
       ret (Failure 500 "Failed to generate QR code" (Some (details_of error)))).

(** The parsed body of [POST /api/send-file] ([SendFileRequest],
    types/index.ts lines 13-19); a field the caller left out is [None]. *)
Record SendFileRequest : Type := mkSendFileRequest {
  req_phone : option string;
  req_isGroup : option bool;
  req_filename : option string;
  req_caption : option string;
  req_base64 : option string
}.

(** The data-URI stripping of the route, message.ts lines 109-112:
    [split('base64,')[1]] when the marker occurs, the input otherwise. *)
Definition strip_data_uri (base64 : string) : option string :=
  if includes base64 "base64," then nth_error (split base64 "base64,") 1
  else Some base64.

(** [POST /api/send-file], message.ts lines 75-146. *)
Definition send_file_route (body : SendFileRequest) : M Response :=
  try_catch
    (ready <- isClientReady ;;
     if negb ready then
       ret (Failure 400
              "Client is not ready. Please authenticate first by scanning QR code."
              None)
     else if falsy (req_phone body) || is_null (req_isGroup body)
             || falsy (req_filename body) || falsy (req_base64 body) then
       ret (Failure 400
              "Missing required fields: phone, isGroup, filename, and base64 are required"
              None)
     else
       let phone := or_string (req_phone body) "" in
       let isGroup := match req_isGroup body with Some b => b | None => false end in
       let filename := or_string (req_filename body) "" in
       let base64Data := strip_data_uri (or_string (req_base64 body) "") in
       result <- sendFile phone isGroup filename base64Data (req_caption body) ;;
       ret (Success "File sent successfully"
              {| data_messageId := messageId result;
                 data_to := phone;
                 data_isGroup := isGroup;
                 data_filename := filename |}))
    (fun error =>
       ret (Failure 500 "Failed to send file" (Some (details_of error)))).

(** Requests to [GET /api/qr] served one after the other, each with its own
    timers. *)
Fixpoint serve_qr (requests : list (list (list Event))) (w : World)
  : list (Outcome Response) * World :=
  match requests with
  | [] => ([], w)
  | timers :: rest =>
      let (r, w') := qr_route timers w in
      let (rs, w'') := serve_qr rest w' in
      (r :: rs, w'')
  end.

End Methods.

(** ** Definitions that follow the specification's words *)

(** "raw ends with the group-domain suffix". *)
Fixpoint endsWith (s p : string) : bool :=
  String.eqb s p ||
  match s with
  | EmptyString => false
  | String _ s' => endsWith s' p
  end.

(** "strip every non-digit character": the decimal digits of [s], in order. *)
Fixpoint digits_only (s : string) : string :=
  match s with
  | EmptyString => EmptyString
  | String c s' =>
      if is_digit c then String c (digits_only s') else digits_only s'
  end.

(** Every code unit of [s] satisfies [p]. *)
Fixpoint all_units (p : ascii -> bool) (s : string) : bool :=
  match s with
  | EmptyString => true
  | String c s' => p c && all_units p s'
  end.

(** ** Sample collaborators and states *)

(** A transport that accepts every send and logs out cleanly. *)
Definition accepting : Environment :=
  {| transport_sendMessage := fun _ _ _ => Returned "true_5521999999999@c.us_3EB0";
     transport_logout := Returned tt;
     QRCode_toBuffer := fun _ => Returned [] |}.

(** A transport whose every call rejects. *)
Definition rejecting : Environment :=
  {| transport_sendMessage := fun _ _ _ => Thrown (External "Evaluation failed");
     transport_logout := Thrown (External "Protocol error");
     QRCode_toBuffer := fun _ => Thrown (External "No input text") |}.

(** The manager once the constructor has run: the handle exists, nothing is
    cached, the session is initializing. *)
Definition constructed : Manager :=
  {| client := Some 0; qrCodeState := cleared;
     isInitializing := true; isReady := false |}.

(** The manager of an authenticated session. *)
Definition authenticated : Manager := dispatch Ready constructed.

(** ** The rest of the manager: start-up, state query and teardown *)

(** The candidates of [getChromePath], client.ts lines 31-36 and 46. *)
Definition linuxPaths : list string :=
  [ "/usr/bin/google-chrome";
    "/usr/bin/google-chrome-stable";
    "/usr/bin/chromium-browser";
    "/usr/bin/chromium" ].

Definition macPath : string :=
  "/Applications/Google Chrome.app/Contents/MacOS/Google Chrome".

(** [getChromePath()], client.ts lines 23-55.  [CHROME_PATH] is
    [process.env.CHROME_PATH] ([None] when unset) and [existsSync] the state
    of the file system. *)
Definition getChromePath (CHROME_PATH : option string)
    (existsSync : string -> bool) : string :=
  if negb (falsy CHROME_PATH) then or_string CHROME_PATH ""
  else
    match find existsSync linuxPaths with
    | Some path => path
    | None =>
        if existsSync macPath then macPath else "/usr/bin/google-chrome"
    end.

(** [WAState], types/index.ts lines 24-34. *)
Inductive WAState : Type :=
| CONNECTED | OPENING | PAIRING | UNPAIRED | TIMEOUT | CONFLICT
| UNLAUNCHED | DEPRECATED_VERSION | TOS_BLOCK | PROXYBLOCK.

(** The calls of start-up, state query and teardown, with the transport's
    answers to those that are awaited. *)
Inductive LifecycleCall : Type :=
| NewClientCall (executablePath : string)
| OnCall (event : string)
| InitializeCall
| GetStateCall
| DestroyCall.

Record Lifecycle : Type := mkLifecycle {
  transport_getState : Outcome WAState;
  transport_destroy : Outcome unit
}.

Definition with_client (c : option Client) (this : Manager) : Manager :=
  {| client := c; qrCodeState := qrCodeState this;
     isInitializing := isInitializing this; isReady := isReady this |}.

(** The fields as their initializers leave them, client.ts lines 11-14. *)
Definition fresh_manager : Manager :=
  {| client := None; qrCodeState := cleared;
     isInitializing := false; isReady := false |}.

(** [setupEventHandlers()], client.ts lines 96-133: the listeners it
    registers on the handle, in order; none without a handle. *)
Definition setupEventHandlers (this : Manager) : list LifecycleCall :=
  if is_null (client this) then []
  else [ OnCall "qr"; OnCall "authenticated"; OnCall "auth_failure";
         OnCall "ready"; OnCall "disconnected"; OnCall "loading_screen" ].

(** [initializeClient()], client.ts lines 60-91: the manager afterwards and
    the calls made.  [handle] is the object [new Client] returns. *)
Definition initializeClient (CHROME_PATH : option string)
    (existsSync : string -> bool) (handle : Client) (this : Manager)
  : Manager * list LifecycleCall :=
  if negb (is_null (client this)) then (this, [])
  else
    let this1 := with_isInitializing true this in
    let this2 := with_client (Some handle) this1 in
    (this2,
     (NewClientCall (getChromePath CHROME_PATH existsSync)
        :: setupEventHandlers this2 ++ [InitializeCall])%list).

(** [getState()], client.ts lines 182-187: the outcome and the calls made. *)
Definition getState (life : Lifecycle) (this : Manager)
  : Outcome WAState * list LifecycleCall :=
  if is_null (client this) then (Returned UNPAIRED, [])
  else (transport_getState life, [GetStateCall]).

(** [destroy()], client.ts lines 349-365: the outcome, the manager afterwards
    and the calls made.  The four assignments follow the awaited call inside
    the [try]; the [catch] only logs. *)
Definition destroy (life : Lifecycle) (this : Manager)
  : Outcome unit * Manager * list LifecycleCall :=
  if is_null (client this) then (Returned tt, this, [])
  else
    match transport_destroy life with
    | Returned _ =>
        (Returned tt,
         with_qrCodeState cleared
           (with_isInitializing false
              (with_isReady false (with_client None this))),
         [DestroyCall])
    | Thrown _ => (Returned tt, this, [DestroyCall])
    end.

(** ** The other routes *)

(** [{ messageId, to, isGroup }], message.ts lines 49-53. *)
Record MessageData : Type := mkMessageData {
  sent_messageId : string;
  sent_to : string;
  sent_isGroup : bool
}.

(** A JSON reply ([ApiResponse], types/index.ts lines 56-61):
    [{ success: false, error, details? }] with its status, or
    [{ success: true, message, data? }] with status 200. *)
Inductive JsonReply : Type :=
| ErrorReply (status : nat) (error : string) (details : option string)
| OkReply (message : string) (data : option MessageData).

(** The parsed body of [POST /api/send-message] ([SendMessageRequest],
    types/index.ts lines 4-8). *)
Record SendMessageRequest : Type := mkSendMessageRequest {
  msg_phone : option string;
  msg_isGroup : option bool;
  msg_message : option string
}.

(** The 404 reply of [GET /api/qr], auth.ts lines 38-45. *)
Definition not_available : Response :=
  Failure 404
    "QR code not available. Client might be authenticated already or still initializing. Please try again in a moment."
    None.

(** The status line of a [Response]. *)
Definition status_of (r : Response) : nat :=
  match r with
  | Failure status _ _ => status
  | Success _ _ => 200
  | Png _ => 200
  end.

Definition is_qr (ev : Event) : bool :=
  match ev with
  | Qr _ _ => true
  | _ => false
  end.

Definition is_ready_event (ev : Event) : bool :=
  match ev with
  | Ready => true
  | _ => false
  end.

Section Routes.

Variable env : Environment.

(** [POST /api/logout], auth.ts lines 69-98. *)
Definition logout_route : M JsonReply :=
  try_catch
    (ready <- isClientReady ;;
     if negb ready then
       ret (ErrorReply 400 "Client is not authenticated" None)
     else
       logout env ;;;
       ret (OkReply "Logged out successfully" None))
    (fun error =>
       ret (ErrorReply 500 "Failed to logout" (Some (details_of error)))).

(** [POST /api/send-message], message.ts lines 12-68. *)
Definition send_message_route (body : SendMessageRequest) : M JsonReply :=
  try_catch
    (ready <- isClientReady ;;
     if negb ready then
       ret (ErrorReply 400
              "Client is not ready. Please authenticate first by scanning QR code."
              None)
     else if falsy (msg_phone body) || is_null (msg_isGroup body)
             || falsy (msg_message body) then
       ret (ErrorReply 400
              "Missing required fields: phone, isGroup, and message are required"
              None)
     else
       let phone := or_string (msg_phone body) "" in
       let isGroup := match msg_isGroup body with Some b => b | None => false end in
       let message := or_string (msg_message body) "" in
       result <- sendMessage env phone isGroup message ;;
       ret (OkReply "Message sent successfully"
              (Some {| sent_messageId := messageId result;
                       sent_to := phone;
                       sent_isGroup := isGroup |})))
    (fun error =>
       ret (ErrorReply 500 "Failed to send message" (Some (details_of error)))).

End Routes.

(** The class [A-Z]: the code units [toLowerCase] changes. *)
Definition is_upper (c : ascii) : bool :=
  let n := nat_of_ascii c in ((65 <=? n) && (n <=? 90))%nat.

(** A transport that answers the state query and accepts [destroy]. *)
Definition teardown_accepted : Lifecycle :=
  {| transport_getState := Returned CONNECTED;
     transport_destroy := Returned tt |}.

(** A transport whose [destroy] rejects. *)
Definition teardown_rejected : Lifecycle :=
  {| transport_getState := Returned CONNECTED;
     transport_destroy := Thrown (External "Target closed") |}.

(** A session waiting for its code to be scanned. *)
Definition awaiting_scan : Manager :=
  dispatch (Qr "2@Zk4v,pairing" 1700000000000) constructed.

(** * Properties *)

(** ** Strings *)

Section StringFacts.

Lemma append_nil_r (s : string) : s ++ "" = s.
Proof. induction s as [|c s IH]; simpl; [reflexivity | now rewrite IH]. Qed.

Lemma append_assoc (a b c : string) : (a ++ b) ++ c = a ++ (b ++ c).
Proof. induction a as [|x a IH]; simpl; [reflexivity | now rewrite IH]. Qed.

Lemma length_append (a b : string) :
  String.length (a ++ b) = String.length a + String.length b.
Proof. induction a as [|x a IH]; simpl; [reflexivity | now rewrite IH]. Qed.

Lemma append_neq_self (a b : string) : b <> "" -> a ++ b <> a.
Proof.
  intros Hb Heq.
  assert (Hlen : String.length (a ++ b) = String.length a) by now rewrite Heq.
  rewrite length_append in Hlen.
  destruct b as [|c b]; [now apply Hb | simpl in Hlen; lia].
Qed.

Lemma startsWith_iff (s p : string) :
  startsWith s p = true <-> exists r, s = p ++ r.
Proof.
  revert s; induction p as [|a p IH]; intros s; simpl.
  - split; [intros _; now exists s | reflexivity].
  - destruct s as [|b s].
    + split; [discriminate | intros [r Hr]; discriminate].
    + rewrite andb_true_iff, Ascii.eqb_eq, IH. split.
      * intros [-> [r ->]]. now exists r.
      * intros [r Hr]. injection Hr as -> ->. split; [reflexivity | now exists r].
Qed.

Lemma startsWith_append (p r : string) : startsWith (p ++ r) p = true.
Proof. apply startsWith_iff. now exists r. Qed.

(** [includes] finds exactly the substrings. *)
Lemma includes_iff (s p : string) :
  includes s p = true <-> exists a b, s = a ++ p ++ b.
Proof.
  induction s as [|c s IH]; simpl.
  - rewrite orb_false_r, startsWith_iff. split.
    + intros [r Hr]. now exists "", r.
    + intros [a [b Hab]]. destruct a; [now exists b | discriminate].
  - rewrite orb_true_iff, startsWith_iff, IH. split.
    + intros [[r Hr] | [a [b Hab]]].
      * now exists "", r.
      * exists (String c a), b. simpl. now rewrite Hab.
    + intros [a [b Hab]]. destruct a as [|x a].
      * left. now exists b.
      * right. simpl in Hab. injection Hab as _ ->. now exists a, b.
Qed.

Lemma includes_append_suffix (a p : string) : includes (a ++ p) p = true.
Proof. apply includes_iff. exists a, "". now rewrite append_nil_r. Qed.

Lemma includes_false_startsWith (s p : string) :
  includes s p = false -> startsWith s p = false.
Proof.
  destruct s; simpl; intros H; apply orb_false_iff in H; tauto.
Qed.

Lemma replace_non_digits (s : string) :
  replace_class_g non_digit "" s = digits_only s.
Proof.
  induction s as [|c s IH]; simpl; [reflexivity|].
  rewrite IH. unfold non_digit. now destruct (is_digit c).
Qed.

Lemma digits_only_all_digits (s : string) :
  all_units is_digit (digits_only s) = true.
Proof.
  induction s as [|c s IH]; simpl; [reflexivity|].
  destruct (is_digit c) eqn:Hc; simpl; [now rewrite Hc|assumption].
Qed.

Lemma digits_only_fixes_digits (s : string) :
  all_units is_digit s = true -> digits_only s = s.
Proof.
  induction s as [|c s IH]; simpl; [reflexivity|].
  intros H. apply andb_true_iff in H as [Hc Hs].
  rewrite Hc. now rewrite IH.
Qed.

Lemma digits_only_append (a b : string) :
  digits_only (a ++ b) = digits_only a ++ digits_only b.
Proof.
  induction a as [|c a IH]; simpl; [reflexivity|].
  destruct (is_digit c); simpl; now rewrite IH.
Qed.

End StringFacts.

(** ** The chat-id formatter *)

(** C3, as the code has it: with [isGroup] true, [formatChatId] returns
    [raw] unchanged if and only if ['@g.us'] occurs somewhere in [raw], at
    the end or not; when it occurs nowhere the result is [raw] followed by
    ['@g.us']. *)
Theorem formatChatId_group_unchanged_iff_contains (raw : string) :
  (formatChatId raw true = raw <-> exists a b, raw = a ++ "@g.us" ++ b) /\
  ((~ exists a b, raw = a ++ "@g.us" ++ b) ->
   formatChatId raw true = raw ++ "@g.us").
Proof.
  unfold formatChatId. rewrite <- includes_iff.
  destruct (includes raw "@g.us") eqn:Hinc.
  - split; [tauto | intros H; now elim H].
  - split; [|reflexivity]. split; [|discriminate].
    intros H. exfalso. revert H. now apply append_neq_self.
Qed.

(** C3, the claim as stated fails: ["1@g.us.x"] does not end with ['@g.us'],
    yet it is returned unchanged and nothing is appended. *)
Lemma formatChatId_group_contains_not_suffix :
  endsWith "1@g.us.x" "@g.us" = false /\
  formatChatId "1@g.us.x" true = "1@g.us.x" /\
  formatChatId "1@g.us.x" true <> "1@g.us.x" ++ "@g.us".
Proof. repeat split; [discriminate]. Qed.

(** C7: with [isGroup] true, formatting twice is formatting once. *)
Theorem formatChatId_group_idempotent (raw : string) :
  formatChatId (formatChatId raw true) true = formatChatId raw true.
Proof.
  unfold formatChatId.
  destruct (includes raw "@g.us") eqn:Hinc.
  - now rewrite Hinc.
  - now rewrite includes_append_suffix.
Qed.

(** C8: with [isGroup] false, [formatChatId] keeps exactly the decimal
    digits of [raw], in order, and appends ['@c.us']: the part before the
    suffix contains digits only, digits already stripped are kept whole, and
    ["+55 21 99999-9999"] becomes ["5521999999999@c.us"]. *)
Theorem formatChatId_individual_digits (raw : string) :
  formatChatId raw false = digits_only raw ++ "@c.us" /\
  all_units is_digit (digits_only raw) = true /\
  formatChatId (digits_only raw) false = digits_only raw ++ "@c.us" /\
  formatChatId "+55 21 99999-9999" false = "5521999999999@c.us".
Proof.
  unfold formatChatId. rewrite !replace_non_digits.
  repeat split.
  - apply digits_only_all_digits.
  - rewrite digits_only_fixes_digits; [reflexivity|].
    apply digits_only_all_digits.
Qed.

(** ** [split] *)

Section SplitFacts.

Lemma split_from_skip (sep p s : string) :
  split_from sep (String.length p) (p ++ s) = split_from sep 0 s.
Proof. induction p as [|c p IH]; simpl; [reflexivity | exact IH]. Qed.

(** A string without the separator is a single piece. *)
Lemma split_from_absent (sep s : string) :
  includes s sep = false -> split_from sep 0 s = (s, []).
Proof.
  induction s as [|c s IH]; intros H.
  - reflexivity.
  - pose proof (includes_false_startsWith _ _ H) as Hst.
    cbn [includes] in H. apply orb_false_iff in H as [_ H].
    cbn [split_from]. rewrite Hst, (IH H). reflexivity.
Qed.

(** At an occurrence of the separator the current piece ends and the scan
    resumes after the separator. *)
Lemma split_from_at_separator (x : ascii) (sep' r : string) :
  split_from (String x sep') 0 (String x sep' ++ r) =
  (EmptyString, let (h, t) := split_from (String x sep') 0 r in h :: t).
Proof.
  set (sep := String x sep').
  change (sep ++ r) with (String x (sep' ++ r)).
  cbn [split_from].
  assert (Hst : startsWith (String x (sep' ++ r)) sep = true)
    by apply (startsWith_append sep r).
  rewrite Hst.
  replace (String.length sep - 1) with (String.length sep')
    by (unfold sep; simpl; lia).
  rewrite split_from_skip.
  now destruct (split_from sep 0 r).
Qed.

Lemma split_absent (s : string) (x : ascii) (sep' : string) :
  includes s (String x sep') = false -> split s (String x sep') = [s].
Proof. intros H. unfold split. now rewrite split_from_absent. Qed.

Lemma pop_singleton_or_more (x : string) (l : list string) :
  exists y, pop (x :: l) = Some y.
Proof.
  revert x; induction l as [|z l IH]; intros x; [now exists x|].
  destruct (IH z) as [y Hy]. exists y. exact Hy.
Qed.

End SplitFacts.

(** ** The MIME resolver *)

(** For a filename without any ['.'] the lookup key is the whole filename,
    lower-cased: [split] gives the single piece and [pop] returns it. *)
Lemma extension_key_without_dot (filename : string) :
  includes filename "." = false ->
  extension_key filename = Some (toLowerCase filename).
Proof.
  intros H. unfold extension_key. now rewrite (split_absent _ _ _ H).
Qed.

(** The key is never [undefined]: [split] always yields a piece. *)
Lemma extension_key_defined (filename : string) :
  exists key, extension_key filename = Some key.
Proof.
  unfold extension_key, split.
  destruct (split_from "." 0 filename) as [h t].
  destruct (pop_singleton_or_more h t) as [y Hy].
  exists (toLowerCase y). now rewrite Hy.
Qed.

(** C4, the code at filenames the claim sends to
    ['application/octet-stream']: ["pdf"] and ["zip"] contain no ['.'], so
    they have no extension, and [getMimeType] answers from the table as if
    the whole name were one; ["a.constructor"] has an extension the table
    does not list, and [getMimeType] returns the inherited member of
    [Object.prototype], not a string. The two examples of the specification
    hold. *)
Theorem getMimeType_whole_name_as_extension :
  includes "pdf" "." = false /\
  extension_key "pdf" = Some "pdf" /\
  getMimeType "pdf" = VString "application/pdf" /\
  getMimeType "zip" = VString "application/zip" /\
  own_property mimeTypes "constructor" = None /\
  getMimeType "a.constructor" = VInherited "constructor" /\
  getMimeType "A.PDF" = getMimeType "a.pdf" /\
  getMimeType "noext" = VString "application/octet-stream".
Proof. repeat split. Qed.

(** ** The data-URI stripping of [POST /api/send-file] *)

Section DataUri.

(** No occurrence of ['base64,'] can begin inside a text that does not contain
    it and end inside a following ['base64,']: the marker has no proper
    prefix that is also a suffix. *)
Lemma marker_no_straddle (a r : string) :
  a <> "" ->
  startsWith a "base64," = false ->
  startsWith (a ++ "base64," ++ r) "base64," = false.
Proof.
  intros Ha H. revert H.
  destruct a as [|c1 [|c2 [|c3 [|c4 [|c5 [|c6 [|c7 a]]]]]]];
    [now elim Ha | ..];
    cbn [startsWith append];
    repeat match goal with
           | |- context [Ascii.eqb ?x ?c] =>
               is_var c; destruct (Ascii.eqb x c)
           end;
    cbn; intros H; try reflexivity; try discriminate.
Qed.

(** Up to the first marker, [split] reads one piece. *)
Lemma split_from_first_marker (a r : string) :
  includes a "base64," = false ->
  split_from "base64," 0 (a ++ "base64," ++ r) =
  (a, let (h, t) := split_from "base64," 0 r in h :: t).
Proof.
  induction a as [|c a IH]; intros H.
  - apply split_from_at_separator.
  - pose proof (includes_false_startsWith _ _ H) as Hst.
    assert (Hst' : startsWith (String c a ++ "base64," ++ r) "base64," = false)
      by (apply marker_no_straddle; [discriminate | exact Hst]).
    cbn [includes] in H. apply orb_false_iff in H as [_ H].
    change (String c a ++ "base64," ++ r)
      with (String c (a ++ "base64," ++ r)) in *.
    cbn [split_from]. rewrite Hst', (IH H).
    reflexivity.
Qed.

(** With the marker twice, element [1] is the text between the first two
    occurrences. *)
Lemma strip_data_uri_between (a b rest : string) :
  includes a "base64," = false ->
  includes b "base64," = false ->
  strip_data_uri (a ++ "base64," ++ b ++ "base64," ++ rest) = Some b.
Proof.
  intros Ha Hb. unfold strip_data_uri.
  assert (Hinc : includes (a ++ "base64," ++ b ++ "base64," ++ rest) "base64,"
                 = true)
    by (apply includes_iff; now exists a, (b ++ "base64," ++ rest)).
  rewrite Hinc. unfold split.
  rewrite (split_from_first_marker a _ Ha).
  rewrite (split_from_first_marker b _ Hb).
  now destruct (split_from "base64," 0 rest).
Qed.

(** With the marker once, element [1] is everything after it. *)
Lemma strip_data_uri_once (a b : string) :
  includes a "base64," = false ->
  includes b "base64," = false ->
  strip_data_uri (a ++ "base64," ++ b) = Some b.
Proof.
  intros Ha Hb. unfold strip_data_uri.
  assert (Hinc : includes (a ++ "base64," ++ b) "base64," = true)
    by (apply includes_iff; now exists a, b).
  rewrite Hinc. unfold split.
  rewrite (split_from_first_marker a _ Ha).
  now rewrite (split_from_absent _ _ Hb).
Qed.

Lemma append_inv_head (p r t : string) : p ++ r = p ++ t -> r = t.
Proof.
  induction p as [|c p IH]; simpl; intros H; [exact H|].
  injection H as H. now apply IH.
Qed.

(** A string that contains a non-empty pattern splits at its first
    occurrence: nothing before it contains the pattern. *)
Lemma first_occurrence (s : string) (x : ascii) (p' : string) :
  includes s (String x p') = true ->
  exists a r, s = a ++ String x p' ++ r /\ includes a (String x p') = false.
Proof.
  set (p := String x p').
  induction s as [|c s IH]; intros H; [discriminate|].
  destruct (startsWith (String c s) p) eqn:Hst.
  - apply startsWith_iff in Hst as [r Hr]. now exists "", r.
  - cbn [includes] in H. rewrite Hst in H. cbn [orb] in H.
    destruct (IH H) as [a [r [Hs Ha]]].
    exists (String c a), r. split; [simpl; now rewrite Hs|].
    cbn [includes]. rewrite Ha, orb_false_r.
    destruct (startsWith (String c a) p) eqn:Hca; [|reflexivity].
    apply startsWith_iff in Hca as [r' Hr'].
    assert (Hst' : startsWith (String c s) p = true).
    { apply startsWith_iff. exists (r' ++ p ++ r).
      rewrite Hs. change (String c (a ++ p ++ r)) with (String c a ++ p ++ r).
      rewrite Hr'. apply append_assoc. }
    congruence.
Qed.

(** Where the first marker of a text sits, what follows it contains every
    later marker. *)
Lemma later_marker_in_remainder (a x r t : string) :
  includes a "base64," = false ->
  a ++ "base64," ++ r = x ++ "base64," ++ t ->
  includes t "base64," = true ->
  includes r "base64," = true.
Proof.
  revert x; induction a as [|c a IH]; intros x Ha Heq Ht.
  - destruct x as [|c' x].
    + apply (append_inv_head "base64," r t) in Heq. now subst r.
    + assert (Hst : startsWith (String c' x ++ "base64," ++ t) "base64," = true)
        by (rewrite <- Heq; exact (startsWith_append "base64," r)).
      destruct (startsWith (String c' x) "base64,") eqn:Hx.
      * apply startsWith_iff in Hx as [x' Hx']. rewrite Hx' in Heq.
        rewrite append_assoc in Heq.
        apply (append_inv_head "base64," r (x' ++ "base64," ++ t)) in Heq.
        apply includes_iff. now exists x', t.
      * rewrite marker_no_straddle in Hst; [discriminate | discriminate | exact Hx].
  - destruct x as [|c' x].
    + assert (Hst : startsWith (String c a ++ "base64," ++ r) "base64," = true)
        by (rewrite Heq; exact (startsWith_append "base64," t)).
      rewrite marker_no_straddle in Hst;
        [discriminate | discriminate | now apply includes_false_startsWith].
    + simpl in Heq. injection Heq as _ Heq.
      cbn [includes] in Ha. apply orb_false_iff in Ha as [_ Ha].
      exact (IH x Ha Heq Ht).
Qed.

(** Every payload with the marker at least twice has the shape the
    stripping is described on: a marker-free text, the first marker, a
    marker-free text, the second marker, the rest; and element [1] of its
    split is the text between the two. *)
Lemma strip_data_uri_marker_twice (x y z : string) :
  exists a b rest,
    x ++ "base64," ++ y ++ "base64," ++ z = a ++ "base64," ++ b ++ "base64," ++ rest /\
    includes a "base64," = false /\
    includes b "base64," = false /\
    strip_data_uri (x ++ "base64," ++ y ++ "base64," ++ z) = Some b.
Proof.
  assert (Hs : includes (x ++ "base64," ++ y ++ "base64," ++ z) "base64," = true)
    by (apply includes_iff; now exists x, (y ++ "base64," ++ z)).
  destruct (first_occurrence _ _ _ Hs) as [a [r [Heq Ha]]].
  assert (Hr : includes r "base64," = true).
  { apply (later_marker_in_remainder a x r (y ++ "base64," ++ z) Ha).
    - now rewrite <- Heq.
    - apply includes_iff. now exists y, z. }
  destruct (first_occurrence _ _ _ Hr) as [b [rest [Heq' Hb]]].
  exists a, b, rest. rewrite Heq, Heq'.
  repeat split; try assumption.
  now apply strip_data_uri_between.
Qed.

Lemma strip_data_uri_absent (s : string) :
  includes s "base64," = false -> strip_data_uri s = Some s.
Proof. intros H. unfold strip_data_uri. now rewrite H. Qed.

End DataUri.

(** ** The readiness gate and the frame of the send operations *)

Section Dispatch.

Variable env : Environment.

(** C1: when the handle is absent or the ready flag is false, [sendMessage]
    and [sendFile] throw the not-ready error and leave the world as it was:
    no field of the manager changes and no call is added to the trace. *)
Theorem send_not_ready_fails_without_call
    (w : World) (phone : string) (isGroup : bool) (message filename : string)
    (base64 caption : option string) :
  client (manager w) = None \/ isReady (manager w) = false ->
  sendMessage env phone isGroup message w = (Thrown NOT_READY, w) /\
  sendFile env phone isGroup filename base64 caption w = (Thrown NOT_READY, w).
Proof.
  intros H. unfold sendMessage, sendFile, bind, get_this, throw.
  destruct H as [H | H]; rewrite H; simpl.
  - split; reflexivity.
  - rewrite orb_true_r. split; reflexivity.
Qed.

(** C9: on every path (gate failure, transport success, transport rejection)
    [sendMessage] and [sendFile] leave [client], [isReady], [isInitializing]
    and [qrCodeState] as they found them. *)
Theorem send_preserves_manager_fields
    (w : World) (phone : string) (isGroup : bool) (message filename : string)
    (base64 caption : option string) :
  manager (snd (sendMessage env phone isGroup message w)) = manager w /\
  manager (snd (sendFile env phone isGroup filename base64 caption w)) = manager w.
Proof.
  unfold sendMessage, sendFile, bind, get_this, throw, try_catch, call, ret.
  destruct (is_null (client (manager w)) || negb (isReady (manager w))); simpl.
  - split; reflexivity.
  - split.
    + now destruct (transport_sendMessage env _ _ _).
    + now destruct (transport_sendMessage env _ _ _).
Qed.

(** C2: with a handle present, [logout] calls the transport's logout once
    and, whatever that call answers, ends with the ready flag false and the
    cached payload cleared; its outcome is the transport's, so a rejection
    reaches the caller only after the cleanup has run. *)
Theorem logout_cleanup_on_every_path (w : World) (c : Client) :
  client (manager w) = Some c ->
  fst (logout env w) = transport_logout env /\
  isReady (manager (snd (logout env w))) = false /\
  qrCodeState (manager (snd (logout env w))) = {| qr := None; timestamp := 0 |} /\
  client (manager (snd (logout env w))) = Some c /\
  isInitializing (manager (snd (logout env w))) = isInitializing (manager w) /\
  trace (snd (logout env w)) = (trace w ++ [LogoutCall])%list.
Proof.
  intros H.
  unfold logout, bind, get_this, throw, try_finally, try_catch, call, update_this.
  rewrite H. simpl.
  destruct (transport_logout env) as [[] | e]; simpl; rewrite ?H; repeat split.
Qed.

(** ** The pairing-code cache *)

(** C5: after two [qr] events in a row the cache holds the second code with
    the second timestamp; the manager is the one a single second event would
    have left, and [getQRCodeImage] hands the encoder the second code only
    (nothing when that code is the empty string). *)
Theorem qr_rotation_supersedes
    (this : Manager) (code1 code2 : string) (now1 now2 : Z) (calls : list Call) :
  let after := dispatch (Qr code2 now2) (dispatch (Qr code1 now1) this) in
  let w := {| manager := after; trace := calls |} in
  qrCodeState after = {| qr := Some code2; timestamp := now2 |} /\
  after = dispatch (Qr code2 now2) this /\
  trace (snd (getQRCodeImage env w)) =
    (calls ++ (if String.eqb code2 "" then [] else [ToBufferCall code2]))%list /\
  fst (getQRCodeImage env w) =
    (if String.eqb code2 "" then Returned None
     else match QRCode_toBuffer env code2 with
          | Returned png => Returned (Some png)
          | Thrown _ => Returned None
          end) /\
  manager (snd (getQRCodeImage env w)) = after.
Proof.
  cbv zeta. split; [reflexivity|]. split; [reflexivity|].
  unfold getQRCodeImage, bind, get_this, try_catch, call, ret.
  destruct code2 as [|x code2]; simpl.
  - rewrite app_nil_r. repeat split.
  - destruct (QRCode_toBuffer env (String x code2)); repeat split.
Qed.

(** C6: after a [ready] event [isClientReady] answers true and the cache is
    cleared; every request to [GET /api/qr] served from then on is answered
    400 "Already authenticated", with no call to the encoder and no change
    to the manager. *)
Theorem ready_then_qr_route_rejects
    (this : Manager) (calls : list Call) (requests : list (list (list Event))) :
  let after := dispatch Ready this in
  let w := {| manager := after; trace := calls |} in
  isClientReady w = (Returned true, w) /\
  qrCodeState after = {| qr := None; timestamp := 0 |} /\
  serve_qr env requests w =
    (map (fun _ => Returned
            (Failure 400
               "Already authenticated. Please logout first to get a new QR code."
               None)) requests,
     w).
Proof.
  cbv zeta. split; [reflexivity|]. split; [reflexivity|].
  induction requests as [|timers rest IH]; [reflexivity|].
  cbn [serve_qr map].
  change (qr_route env timers
            {| manager := dispatch Ready this; trace := calls |})
    with (Returned
            (Failure 400
               "Already authenticated. Please logout first to get a new QR code."
               None),
          {| manager := dispatch Ready this; trace := calls |}).
  cbv beta iota. now rewrite IH.
Qed.

End Dispatch.

(** ** What [POST /api/send-file] forwards *)

Section SendFileRoute.

Variable env : Environment.

Lemma or_string_some (s : string) : or_string (Some s) "" = s.
Proof. now destruct s. Qed.

Lemma falsy_some (s : string) : s <> "" -> falsy (Some s) = false.
Proof. destruct s; [intros H; now elim H | reflexivity]. Qed.

(** A well-formed request on a ready session makes one call to the
    transport, whose media carries the stripped payload. *)
Lemma send_file_route_call
    (w : World) (c : Client) (phone : string) (isGroup : bool)
    (filename : string) (caption : option string) (base64 : string) :
  client (manager w) = Some c ->
  isReady (manager w) = true ->
  phone <> "" -> filename <> "" -> base64 <> "" ->
  trace (snd (send_file_route env
                {| req_phone := Some phone; req_isGroup := Some isGroup;
                   req_filename := Some filename; req_caption := caption;
                   req_base64 := Some base64 |} w)) =
  (trace w ++
   [SendMessageCall (formatChatId phone isGroup)
      (Media {| media_mimetype := getMimeType filename;
                media_data := strip_data_uri base64;
                media_filename := filename |})
      (Some (caption_or_undefined caption))])%list.
Proof.
  intros Hc Hr Hp Hf Hb.
  unfold send_file_route, sendFile, isClientReady, bind, get_this, try_catch,
    call, ret, throw.
  cbn [req_phone req_isGroup req_filename req_caption req_base64].
  rewrite Hr, !or_string_some, (falsy_some _ Hp), (falsy_some _ Hf),
    (falsy_some _ Hb).
  cbn [negb orb is_null manager]. rewrite Hc, Hr. cbn [negb orb is_null].
  now destruct (transport_sendMessage env _ _ _).
Qed.

(** C10: the route forwards element [1] of the split on ['base64,'].  When
    the payload holds the marker twice, with no further occurrence before or
    between them, the transport receives exactly the text between the two
    markers, which is not the whole remainder after the first; a payload
    without the marker is forwarded as it is. *)
Theorem send_file_route_forwards_between_markers
    (w : World) (c : Client) (phone : string) (isGroup : bool)
    (filename : string) (caption : option string)
    (a b rest plain : string) :
  client (manager w) = Some c ->
  isReady (manager w) = true ->
  phone <> "" -> filename <> "" ->
  includes a "base64," = false ->
  includes b "base64," = false ->
  plain <> "" ->
  includes plain "base64," = false ->
  let request base64 :=
    {| req_phone := Some phone; req_isGroup := Some isGroup;
       req_filename := Some filename; req_caption := caption;
       req_base64 := Some base64 |} in
  let sent data :=
    SendMessageCall (formatChatId phone isGroup)
      (Media {| media_mimetype := getMimeType filename;
                media_data := data;
                media_filename := filename |})
      (Some (caption_or_undefined caption)) in
  trace (snd (send_file_route env
                (request (a ++ "base64," ++ b ++ "base64," ++ rest)) w)) =
    (trace w ++ [sent (Some b)])%list /\
  b <> b ++ "base64," ++ rest /\
  trace (snd (send_file_route env (request plain) w)) =
    (trace w ++ [sent (Some plain)])%list.
Proof.
  intros Hc Hr Hp Hf Ha Hb Hpl Hplain. cbv zeta.
  split; [|split].
  - rewrite (send_file_route_call w c) by
      (try assumption; destruct a; discriminate).
    now rewrite strip_data_uri_between.
  - intros Heq. symmetry in Heq. revert Heq.
    apply append_neq_self. discriminate.
  - rewrite (send_file_route_call w c) by assumption.
    now rewrite strip_data_uri_absent.
Qed.

End SendFileRoute.

(** ** The theorems at concrete inputs *)

Example split_two_dots : split "a.tar.gz" "." = ["a"; "tar"; "gz"].
Proof. reflexivity. Qed.

Example split_without_separator : split "noext" "." = ["noext"].
Proof. reflexivity. Qed.

Example split_of_empty : split "" "." = [""].
Proof. reflexivity. Qed.

Example split_trailing_separator : split "a." "." = ["a"; ""].
Proof. reflexivity. Qed.

Example split_data_uri :
  split "data:image/png;base64,AAAA" "base64," = ["data:image/png;"; "AAAA"].
Proof. reflexivity. Qed.

Example strip_two_markers :
  strip_data_uri "data:image/png;base64,AAAAbase64,BBBB" = Some "AAAA".
Proof. reflexivity. Qed.

Example getMimeType_known : getMimeType "photo.JPG" = VString "image/jpeg".
Proof. reflexivity. Qed.

Example getMimeType_trailing_dot :
  getMimeType "archive." = VString "application/octet-stream".
Proof. reflexivity. Qed.

Example formatChatId_group_full_jid :
  formatChatId "120363138187262687@g.us" true = "120363138187262687@g.us".
Proof. reflexivity. Qed.

Example formatChatId_group_bare :
  formatChatId "120363138187262687" true = "120363138187262687@g.us".
Proof. reflexivity. Qed.

Lemma formatChatId_group_unchanged_iff_contains_witness :
  (~ exists a b, "120363138187262687" = a ++ "@g.us" ++ b) /\
  formatChatId "120363138187262687" true = "120363138187262687" ++ "@g.us".
Proof.
  assert (H : ~ exists a b, "120363138187262687" = a ++ "@g.us" ++ b).
  { intros H. apply includes_iff in H. vm_compute in H. discriminate. }
  split; [exact H|].
  exact (proj2 (formatChatId_group_unchanged_iff_contains "120363138187262687") H).
Defined.

Lemma send_not_ready_fails_without_call_witness :
  isReady (manager {| manager := constructed; trace := [] |}) = false /\
  sendMessage rejecting "5521999999999" false "hello"
    {| manager := constructed; trace := [] |} =
    (Thrown NOT_READY, {| manager := constructed; trace := [] |}) /\
  sendFile rejecting "5521999999999" false "photo.jpg" (Some "AAAA") None
    {| manager := constructed; trace := [] |} =
    (Thrown NOT_READY, {| manager := constructed; trace := [] |}).
Proof.
  split; [reflexivity|].
  apply (send_not_ready_fails_without_call rejecting
           {| manager := constructed; trace := [] |}).
  right. reflexivity.
Defined.

Lemma logout_cleanup_on_every_path_witness :
  client (manager {| manager := authenticated; trace := [] |}) = Some 0 /\
  transport_logout rejecting = Thrown (External "Protocol error") /\
  fst (logout rejecting {| manager := authenticated; trace := [] |}) =
    transport_logout rejecting /\
  isReady (manager (snd (logout rejecting
                           {| manager := authenticated; trace := [] |}))) = false.
Proof.
  split; [reflexivity|]. split; [reflexivity|].
  pose proof (logout_cleanup_on_every_path rejecting
                {| manager := authenticated; trace := [] |} 0 eq_refl) as H.
  split; [exact (proj1 H) | exact (proj1 (proj2 H))].
Defined.

Lemma send_file_route_forwards_between_markers_witness :
  trace (snd (send_file_route accepting
                {| req_phone := Some "5521999999999"; req_isGroup := Some false;
                   req_filename := Some "photo.png"; req_caption := None;
                   req_base64 := Some "data:image/png;base64,AAAAbase64,BBBB" |}
                {| manager := authenticated; trace := [] |})) =
  [SendMessageCall "5521999999999@c.us"
     (Media {| media_mimetype := VString "image/png";
               media_data := Some "AAAA";
               media_filename := "photo.png" |})
     (Some None)].
Proof.
  exact (proj1 (send_file_route_forwards_between_markers accepting
                  {| manager := authenticated; trace := [] |} 0
                  "5521999999999" false "photo.png" None
                  "data:image/png;" "AAAA" "BBBB" "AAAA"
                  eq_refl eq_refl
                  ltac:(discriminate) ltac:(discriminate)
                  eq_refl eq_refl
                  ltac:(discriminate) eq_refl)).
Defined.

(** * Further properties of the code *)

(** ** The chat-id formatter, individual chats *)

Lemma append_inv_tail (a b s : string) : a ++ s = b ++ s -> a = b.
Proof.
  revert b; induction a as [|x a IH]; intros [|y b] H; simpl in H.
  - reflexivity.
  - exfalso. apply (f_equal String.length) in H.
    simpl in H. rewrite length_append in H. lia.
  - exfalso. apply (f_equal String.length) in H.
    simpl in H. rewrite length_append in H. lia.
  - injection H as -> H. now rewrite (IH b H).
Qed.

(** X1: With [isGroup] false, formatting an address that is already formatted
    changes nothing: the suffix ['@c.us'] holds no digit. *)
Theorem formatChatId_individual_idempotent (raw : string) :
  formatChatId (formatChatId raw false) false = formatChatId raw false.
Proof.
  unfold formatChatId. rewrite !replace_non_digits, digits_only_append.
  rewrite (digits_only_fixes_digits _ (digits_only_all_digits raw)).
  simpl. now rewrite append_nil_r.
Qed.

(** X2: With [isGroup] false, two inputs get the same chat id exactly when they
    hold the same digits in the same order: spaces, signs and any other
    character never tell two numbers apart, and digits always do. *)
Theorem formatChatId_individual_same_digits (a b : string) :
  formatChatId a false = formatChatId b false <->
  digits_only a = digits_only b.
Proof.
  unfold formatChatId. rewrite !replace_non_digits. split.
  - apply append_inv_tail.
  - now intros ->.
Qed.

(** ** The MIME resolver on every filename *)

Section MimeFacts.

Lemma toLowerCase_unit_dot (c : ascii) :
  Ascii.eqb "." (toLowerCase_unit c) = Ascii.eqb "." c.
Proof. destruct c as [[] [] [] [] [] [] [] []]; reflexivity. Qed.

Lemma toLowerCase_unit_idempotent (c : ascii) :
  toLowerCase_unit (toLowerCase_unit c) = toLowerCase_unit c.
Proof. destruct c as [[] [] [] [] [] [] [] []]; reflexivity. Qed.

Lemma toLowerCase_unit_not_upper (c : ascii) :
  is_upper (toLowerCase_unit c) = false.
Proof. destruct c as [[] [] [] [] [] [] [] []]; reflexivity. Qed.

Lemma toLowerCase_idempotent (s : string) :
  toLowerCase (toLowerCase s) = toLowerCase s.
Proof.
  induction s as [|c s IH]; simpl; [reflexivity|].
  now rewrite toLowerCase_unit_idempotent, IH.
Qed.

Lemma toLowerCase_append (a b : string) :
  toLowerCase (a ++ b) = toLowerCase a ++ toLowerCase b.
Proof. induction a as [|c a IH]; simpl; [reflexivity | now rewrite IH]. Qed.

Lemma toLowerCase_no_upper (s : string) :
  all_units (fun c => negb (is_upper c)) (toLowerCase s) = true.
Proof.
  induction s as [|c s IH]; simpl; [reflexivity|].
  now rewrite toLowerCase_unit_not_upper, IH.
Qed.

Lemma startsWith_dot_toLowerCase (s : string) :
  startsWith (toLowerCase s) "." = startsWith s ".".
Proof.
  destruct s as [|c s]; [reflexivity|].
  cbn [toLowerCase startsWith]. now rewrite toLowerCase_unit_dot.
Qed.

(** Splitting on ['.'] and lower-casing commute. *)
Lemma split_from_dot_toLowerCase (s : string) (skip : nat) :
  split_from "." skip (toLowerCase s) =
  (toLowerCase (fst (split_from "." skip s)),
   map toLowerCase (snd (split_from "." skip s))).
Proof.
  revert skip; induction s as [|c s IH]; intros skip; [reflexivity|].
  change (toLowerCase (String c s))
    with (String (toLowerCase_unit c) (toLowerCase s)).
  cbn [split_from]. destruct skip as [|k]; [|apply IH].
  change (String (toLowerCase_unit c) (toLowerCase s))
    with (toLowerCase (String c s)).
  rewrite startsWith_dot_toLowerCase.
  destruct (startsWith (String c s) ".").
  - rewrite IH. now destruct (split_from "." _ s).
  - rewrite IH. now destruct (split_from "." 0 s).
Qed.

Lemma pop_map (f : string -> string) (l : list string) :
  pop (map f l) = option_map f (pop l).
Proof.
  induction l as [|x l IH]; [reflexivity|].
  destruct l as [|y l]; [reflexivity|]. exact IH.
Qed.

Lemma extension_key_toLowerCase (filename : string) :
  extension_key (toLowerCase filename) = extension_key filename.
Proof.
  unfold extension_key, split.
  rewrite split_from_dot_toLowerCase.
  destruct (split_from "." 0 filename) as [h t]. cbn [fst snd].
  change (toLowerCase h :: map toLowerCase t) with (map toLowerCase (h :: t)).
  rewrite pop_map.
  destruct (pop (h :: t)); [|reflexivity].
  cbn [option_map]. now rewrite toLowerCase_idempotent.
Qed.

Lemma pop_cons_nonempty (x : string) (l : list string) (k : string) :
  pop l = Some k -> pop (x :: l) = Some k.
Proof. destruct l; [discriminate | trivial]. Qed.

(** After the last ['.'] comes the last piece. *)
Lemma split_from_last_piece (a k : string) :
  includes k "." = false ->
  pop (snd (split_from "." 0 (a ++ "." ++ k))) = Some k.
Proof.
  intros Hk. induction a as [|c a IH].
  - change ("" ++ "." ++ k) with ("." ++ k).
    rewrite (split_from_at_separator "."%char "" k).
    now rewrite (split_from_absent _ _ Hk).
  - change (String c a ++ "." ++ k) with (String c (a ++ "." ++ k)).
    cbn [split_from].
    destruct (startsWith (String c (a ++ "." ++ k)) ".").
    + cbn [String.length Nat.sub].
      destruct (split_from "." 0 (a ++ "." ++ k)) as [h t].
      cbn [snd] in *. now apply pop_cons_nonempty.
    + destruct (split_from "." 0 (a ++ "." ++ k)) as [h t].
      exact IH.
Qed.

Lemma extension_key_last_piece (a k : string) :
  includes k "." = false ->
  extension_key (a ++ "." ++ k) = Some (toLowerCase k).
Proof.
  intros Hk. unfold extension_key, split.
  pose proof (split_from_last_piece a k Hk) as H.
  destruct (split_from "." 0 (a ++ "." ++ k)) as [h t]. cbn [snd] in H.
  now rewrite (pop_cons_nonempty h t k H).
Qed.

End MimeFacts.

(** X3: Letter case never matters to [getMimeType]: two filenames that are
    equal once lower-cased get the same answer. *)
Theorem getMimeType_case_insensitive (a b : string) :
  toLowerCase a = toLowerCase b -> getMimeType a = getMimeType b.
Proof.
  intros H. unfold getMimeType.
  rewrite <- (extension_key_toLowerCase a), <- (extension_key_toLowerCase b).
  now rewrite H.
Qed.

(** X4: Only the text after the last ['.'] matters: whatever precedes it, dots
    included, a filename resolves as its last piece alone would. *)
Theorem getMimeType_last_piece (stem ext : string) :
  includes ext "." = false ->
  getMimeType (stem ++ "." ++ ext) = getMimeType ext.
Proof.
  intros H. unfold getMimeType.
  rewrite (extension_key_last_piece stem ext H).
  now rewrite (extension_key_without_dot ext H).
Qed.

(** X5: Every entry of the table is reached: a filename whose last piece is,
    up to letter case, one of the 27 listed extensions gets that entry's
    type. *)
Theorem getMimeType_table_entry (stem ext mime : string) :
  In (toLowerCase ext, mime) mimeTypes ->
  getMimeType (stem ++ "." ++ ext) = VString mime.
Proof.
  intros Hin. unfold getMimeType.
  rewrite <- (extension_key_toLowerCase (stem ++ "." ++ ext)).
  rewrite !toLowerCase_append.
  change (toLowerCase ".") with ".".
  unfold mimeTypes in Hin. cbn [In] in Hin.
  repeat (destruct Hin as [Hin | Hin];
          [injection Hin as Hk Hm; rewrite <- Hk, <- Hm;
           rewrite extension_key_last_piece by reflexivity; reflexivity|]).
  contradiction.
Qed.

(** X6: What [getMimeType] can return: a non-empty string, or, for the two
    lower-case names every object inherits, the inherited member itself.
    The other inherited names hold an upper-case letter and are never the
    key. *)
Theorem getMimeType_result_shape (filename : string) :
  (exists mime, getMimeType filename = VString mime /\ mime <> "") \/
  getMimeType filename = VInherited "constructor" \/
  getMimeType filename = VInherited "__proto__".
Proof.
  unfold getMimeType.
  destruct (extension_key_defined filename) as [key Hkey].
  assert (Hlow : all_units (fun c => negb (is_upper c)) key = true).
  { unfold extension_key in Hkey.
    destruct (pop (split filename ".")) as [y|]; [|discriminate].
    injection Hkey as <-. apply toLowerCase_no_upper. }
  rewrite Hkey.
  assert (Hor : or_string (Some key) "" = key) by now destruct key.
  rewrite Hor. unfold get_property.
  destruct (own_property mimeTypes key) as [v|] eqn:Hown.
  - left. destruct v as [|x v]; cbn [truthy].
    + eexists; split; [reflexivity | discriminate].
    + eexists; split; [reflexivity | discriminate].
  - destruct (existsb (String.eqb key) object_prototype_names) eqn:Hex.
    + cbn [truthy]. apply existsb_exists in Hex as [name [Hin Heq]].
      apply String.eqb_eq in Heq. subst name.
      unfold object_prototype_names in Hin. cbn [In] in Hin.
      repeat (destruct Hin as [Hin | Hin];
              [subst key; first [ now (right; left) | now (right; right)
                                | discriminate Hlow ] |]).
      contradiction.
    + left. cbn [truthy]. eexists; split; [reflexivity | discriminate].
Qed.

(** ** The data-URI stripping on every payload *)

(** X7: Whatever the payload, element [1] exists when the route reads it, and
    what is forwarded never contains the marker ['base64,']; stripping what
    was stripped changes nothing. *)
Theorem strip_data_uri_marker_free (base64 : string) :
  exists data,
    strip_data_uri base64 = Some data /\
    includes data "base64," = false /\
    strip_data_uri data = Some data.
Proof.
  destruct (includes base64 "base64,") eqn:Hinc.
  - destruct (first_occurrence _ _ _ Hinc) as [a [r [-> Ha]]].
    destruct (includes r "base64,") eqn:Hr.
    + destruct (first_occurrence _ _ _ Hr) as [b [rest [-> Hb]]].
      exists b. rewrite (strip_data_uri_between a b rest Ha Hb).
      repeat split; [assumption | now apply strip_data_uri_absent].
    + exists r. rewrite (strip_data_uri_once a r Ha Hr).
      repeat split; [assumption | now apply strip_data_uri_absent].
  - exists base64. rewrite (strip_data_uri_absent _ Hinc). now repeat split.
Qed.

(** ** Locating the browser *)

(** X9: A non-empty [CHROME_PATH] is returned as it is, whether or not the file
    exists.  Without it the answer is one of the five known paths, and it
    either exists or is the default ['/usr/bin/google-chrome'] returned
    because none of the five exists. *)
Theorem getChromePath_choice (CHROME_PATH : option string)
    (existsSync : string -> bool) :
  let path := getChromePath CHROME_PATH existsSync in
  (falsy CHROME_PATH = false /\ CHROME_PATH = Some path) \/
  (falsy CHROME_PATH = true /\
   In path (linuxPaths ++ [macPath])%list /\
   (existsSync path = true \/
    (path = "/usr/bin/google-chrome" /\
     forallb (fun p => negb (existsSync p)) (linuxPaths ++ [macPath])%list
       = true))).
Proof.
  cbv zeta. unfold getChromePath.
  destruct (falsy CHROME_PATH) eqn:Hf; cbn [negb].
  - right. split; [reflexivity|].
    unfold linuxPaths. cbn [find app forallb In].
    destruct (existsSync "/usr/bin/google-chrome") eqn:H1;
      [split; [tauto | now left]|].
    destruct (existsSync "/usr/bin/google-chrome-stable") eqn:H2;
      [split; [tauto | now left]|].
    destruct (existsSync "/usr/bin/chromium-browser") eqn:H3;
      [split; [tauto | now left]|].
    destruct (existsSync "/usr/bin/chromium") eqn:H4;
      [split; [tauto | now left]|].
    destruct (existsSync macPath) eqn:H5;
      [split; [tauto | now left]|].
    split; [tauto | right; split; reflexivity].
  - left. split; [reflexivity|].
    destruct CHROME_PATH as [[|c p]|]; try discriminate. reflexivity.
Qed.

(** ** Start-up and teardown *)

(** X10: [initializeClient] creates a handle only when there is none: on a
    manager without a handle it stores the new handle and raises
    [isInitializing]; run again, with any other handle, it changes nothing
    and makes no call. *)
Theorem initializeClient_once
    (CHROME_PATH : option string) (existsSync : string -> bool)
    (handle other : Client) (this : Manager) :
  let started := fst (initializeClient CHROME_PATH existsSync handle this) in
  client started = Some (match client this with Some c => c | None => handle end) /\
  initializeClient CHROME_PATH existsSync other started = (started, []) /\
  isInitializing started = isInitializing this || is_null (client this) /\
  isReady started = isReady this /\
  qrCodeState started = qrCodeState this.
Proof.
  cbv zeta. unfold initializeClient.
  destruct this as [[c|] q i r]; cbn.
  - rewrite orb_false_r. now repeat split.
  - rewrite orb_true_r. now repeat split.
Qed.

(** [destroy] never throws and never leaves the manager half reset: after
    it the manager is either exactly as it was (no handle to destroy, or the
    transport's [destroy] rejected, which is swallowed and keeps the handle
    and the flags) or back to its initial fields.  It asks the transport at
    most once, and not at all without a handle. *)
Theorem destroy_all_or_nothing (life : Lifecycle) (this : Manager) :
  fst (fst (destroy life this)) = Returned tt /\
  (snd (fst (destroy life this)) = this \/
   snd (fst (destroy life this)) = fresh_manager) /\
  snd (destroy life this) =
    (if is_null (client this) then [] else [DestroyCall]).
Proof.
  unfold destroy.
  destruct (client this) as [c|]; cbn [is_null].
  - destruct (transport_destroy life) as [u|e]; cbn [fst snd].
    + split; [reflexivity|]. split; [now right | reflexivity].
    + split; [reflexivity|]. split; [now left | reflexivity].
  - cbn [fst snd]. split; [reflexivity|]. split; [now left | reflexivity].
Qed.

Section AfterDestroy.

Variable env : Environment.

(** X11: Once the transport has accepted [destroy], nothing reaches it any more:
    both sends fail the readiness gate, [logout] throws for want of a
    handle, [getState] answers [UNPAIRED] by itself and a second [destroy]
    is a no-op, all without a call. *)
Theorem destroyed_manager_is_inert
    (life life' : Lifecycle) (this : Manager) (c : Client) (u : unit)
    (calls : list Call) (phone : string) (isGroup : bool)
    (message filename : string) (base64 caption : option string) :
  client this = Some c ->
  transport_destroy life = Returned u ->
  let after := snd (fst (destroy life this)) in
  let w := {| manager := after; trace := calls |} in
  after = fresh_manager /\
  sendMessage env phone isGroup message w = (Thrown NOT_READY, w) /\
  sendFile env phone isGroup filename base64 caption w = (Thrown NOT_READY, w) /\
  logout env w = (Thrown (JsError "No client to logout"), w) /\
  getState life' after = (Returned UNPAIRED, []) /\
  destroy life' after = (Returned tt, after, []).
Proof.
  intros Hc Hd. cbv zeta. unfold destroy. rewrite Hc, Hd. cbn.
  repeat split.
Qed.

(** X12: When the transport rejects [destroy], the rejection is swallowed and
    the session stays as it was: a ready session is still ready and the next
    [sendMessage] reaches the transport. *)
Theorem failed_destroy_keeps_session
    (life : Lifecycle) (this : Manager) (c : Client) (e : Exn)
    (calls : list Call) (phone : string) (isGroup : bool) (message : string) :
  client this = Some c ->
  isReady this = true ->
  transport_destroy life = Thrown e ->
  let after := snd (fst (destroy life this)) in
  fst (fst (destroy life this)) = Returned tt /\
  after = this /\
  trace (snd (sendMessage env phone isGroup message
                {| manager := after; trace := calls |})) =
    (calls ++ [SendMessageCall (formatChatId phone isGroup) (Text message) None])%list.
Proof.
  intros Hc Hr Hd. cbv zeta. unfold destroy. rewrite Hc, Hd. cbn [is_null fst snd].
  split; [reflexivity|]. split; [reflexivity|].
  unfold sendMessage, bind, get_this, try_catch, call, ret, throw.
  cbn [manager]. rewrite Hc, Hr. cbn [is_null negb orb].
  now destruct (transport_sendMessage env _ _ _).
Qed.

End AfterDestroy.

(** Unfold the monad's plumbing and the one-line getters. *)
Ltac run_js :=
  cbv [bind ret throw try_catch try_finally get_this update_this call
       isClientReady isClientInitializing hasQRCode];
  cbv beta iota.

(** ** Transport events *)

(** X13: No transport event creates, replaces or drops the handle, and
    [isInitializing] only ever falls: after a batch of events it is still
    true exactly when it was true and no [ready] event was in the batch. *)
Theorem events_keep_handle (batch : list Event) (this : Manager) :
  client (deliver batch this) = client this /\
  isInitializing (deliver batch this) =
    isInitializing this && negb (existsb is_ready_event batch).
Proof.
  unfold deliver. revert this.
  induction batch as [|ev batch IH]; intros this; cbn [fold_left existsb].
  - now rewrite andb_true_r.
  - destruct (IH (dispatch ev this)) as [IHc IHi].
    rewrite IHc, IHi.
    destruct ev; cbn; split; try reflexivity;
      now destruct (isInitializing this), (existsb is_ready_event batch).
Qed.

Section Gate.

Variable env : Environment.

(** X14: After a [disconnected] or an [auth_failure] event, whatever the session
    was, both sends fail the readiness gate without a call.  The first
    clears the cached code, the second leaves it. *)
Theorem session_loss_closes_gate
    (this : Manager) (reason msg : string) (calls : list Call)
    (phone : string) (isGroup : bool) (message filename : string)
    (base64 caption : option string) :
  let down := {| manager := dispatch (Disconnected reason) this; trace := calls |} in
  let failed := {| manager := dispatch (AuthFailure msg) this; trace := calls |} in
  sendMessage env phone isGroup message down = (Thrown NOT_READY, down) /\
  sendFile env phone isGroup filename base64 caption down = (Thrown NOT_READY, down) /\
  sendMessage env phone isGroup message failed = (Thrown NOT_READY, failed) /\
  sendFile env phone isGroup filename base64 caption failed = (Thrown NOT_READY, failed) /\
  qrCodeState (manager down) = cleared /\
  qrCodeState (manager failed) = qrCodeState this.
Proof.
  cbv zeta. unfold sendMessage, sendFile, bind, get_this, throw.
  cbn. rewrite !orb_true_r. now repeat split.
Qed.

(** ** [GET /api/qr] *)

Lemma poll_returns (n : nat) (timers : list (list Event)) (w : World) :
  exists w', poll n timers w = (Returned tt, w') /\ trace w' = trace w.
Proof.
  revert timers w; induction n as [|n IH]; intros timers w.
  - now exists w.
  - cbn [poll]. run_js.
    destruct (negb (is_null (qr (qrCodeState (manager w))))).
    + now exists w.
    + destruct (IH (tl timers)
                  {| manager := deliver (hd [] timers) (manager w);
                     trace := trace w |}) as [w' [Hp Ht]].
      exists w'. now rewrite Hp.
Qed.

Lemma getQRCodeImage_returns (w : World) :
  exists image w',
    getQRCodeImage env w = (Returned image, w') /\
    manager w' = manager w /\
    (trace w' = trace w \/
     exists text, trace w' = (trace w ++ [ToBufferCall text])%list).
Proof.
  unfold getQRCodeImage. run_js.
  destruct (falsy (qr (qrCodeState (manager w)))).
  - exists None, w. now repeat split; left.
  - destruct (QRCode_toBuffer env _) as [png|e]; eexists; eexists;
      (split; [reflexivity|]); (split; [reflexivity|]);
      right; eexists; reflexivity.
Qed.

(** X15: The route always answers, with status 200, 400 or 404: its 500 branch
    is never taken, because [getQRCodeImage] turns an encoder failure into
    "no image".  It asks the encoder at most once. *)
Theorem qr_route_never_500 (timers : list (list Event)) (w : World) :
  exists r w',
    qr_route env timers w = (Returned r, w') /\
    (status_of r = 200 \/ status_of r = 400 \/ status_of r = 404) /\
    (trace w' = trace w \/
     exists text, trace w' = (trace w ++ [ToBufferCall text])%list).
Proof.
  unfold qr_route. run_js.
  destruct (isReady (manager w)).
  - eexists; eexists. split; [reflexivity|]. split; [now (right; left) | now left].
  - set (waited := if isInitializing (manager w) &&
                      negb (negb (is_null (qr (qrCodeState (manager w)))))
                   then poll 20 timers else (fun w0 => (Returned tt, w0))).
    assert (Hw : exists w1, waited w = (Returned tt, w1) /\ trace w1 = trace w).
    { unfold waited. destruct (isInitializing (manager w) && _).
      - apply poll_returns.
      - now exists w. }
    destruct Hw as [w1 [Hw1 Ht1]]. rewrite Hw1.
    destruct (getQRCodeImage_returns w1) as [image [w2 [Hg [_ Ht2]]]].
    rewrite Hg. rewrite Ht1 in Ht2.
    destruct image as [png|]; eexists; eexists;
      (split; [reflexivity|]); (split; [|exact Ht2]); cbn; tauto.
Qed.

(** X16: A request on a session that is not ready and has a non-empty code
    cached is served at once, without waiting: the encoder is asked for that
    code, its image is the body, and its failure is answered 404. *)
Theorem qr_route_serves_cached_code
    (timers : list (list Event)) (w : World) (code : string) :
  isReady (manager w) = false ->
  qr (qrCodeState (manager w)) = Some code ->
  code <> "" ->
  qr_route env timers w =
    (match QRCode_toBuffer env code with
     | Returned png => Returned (Png png)
     | Thrown _ => Returned not_available
     end,
     {| manager := manager w; trace := (trace w ++ [ToBufferCall code])%list |}).
Proof.
  intros Hr Hq Hc.
  unfold qr_route, getQRCodeImage. run_js.
  rewrite Hr, Hq. cbn [is_null negb andb]. rewrite andb_false_r.
  cbv beta iota. rewrite Hq.
  destruct code as [|x code]; [now elim Hc|]. cbn [falsy or_string].
  now destruct (QRCode_toBuffer env (String x code)).
Qed.

(** X17: The empty code counts as cached for [hasQRCode] and as absent for
    [getQRCodeImage]: with it the route neither waits nor asks the encoder
    and answers 404. *)
Theorem qr_route_empty_code (timers : list (list Event)) (w : World) :
  isReady (manager w) = false ->
  qr (qrCodeState (manager w)) = Some "" ->
  hasQRCode w = (Returned true, w) /\
  qr_route env timers w = (Returned not_available, w).
Proof.
  intros Hr Hq.
  unfold qr_route, getQRCodeImage. run_js.
  rewrite Hr, Hq. cbn [is_null negb andb]. rewrite andb_false_r.
  cbv beta iota. rewrite Hq. cbn [falsy]. now split.
Qed.

End Gate.

(** ** The wait of [GET /api/qr] *)

Section Wait.

Variable env : Environment.

Lemma dispatch_without_qr (ev : Event) (this : Manager) :
  is_qr ev = false ->
  qr (qrCodeState this) = None ->
  qr (qrCodeState (dispatch ev this)) = None.
Proof. destruct ev; cbn; intros H Hq; try discriminate; trivial. Qed.

Lemma deliver_without_qr (batch : list Event) (this : Manager) :
  forallb (fun ev => negb (is_qr ev)) batch = true ->
  qr (qrCodeState this) = None ->
  qr (qrCodeState (deliver batch this)) = None.
Proof.
  unfold deliver. revert this.
  induction batch as [|ev batch IH]; intros this H Hq; [exact Hq|].
  cbn [forallb] in H. apply andb_true_iff in H as [Hev H].
  cbn [fold_left]. apply IH; [exact H|].
  apply dispatch_without_qr; [|exact Hq].
  now destruct (is_qr ev).
Qed.

Lemma poll_without_qr (n : nat) (timers : list (list Event)) (w : World) :
  forallb (forallb (fun ev => negb (is_qr ev))) timers = true ->
  qr (qrCodeState (manager w)) = None ->
  exists w',
    poll n timers w = (Returned tt, w') /\
    trace w' = trace w /\
    qr (qrCodeState (manager w')) = None.
Proof.
  revert timers w; induction n as [|n IH]; intros timers w Ht Hq.
  - now exists w.
  - cbn [poll]. run_js. rewrite Hq. cbn [is_null negb].
    destruct (IH (tl timers)
                {| manager := deliver (hd [] timers) (manager w);
                   trace := trace w |}) as [w' [Hp [Htr Hq']]].
    + destruct timers as [|b timers]; [reflexivity|].
      cbn [forallb] in Ht. now apply andb_true_iff in Ht as [_ Ht].
    + cbn [manager]. apply deliver_without_qr; [|exact Hq].
      destruct timers as [|b timers]; [reflexivity|].
      cbn [forallb] in Ht. now apply andb_true_iff in Ht as [Hb _].
    + exists w'. now rewrite Hp.
Qed.

(** X18: A request that finds the session not ready and no code cached is
    answered 404 whenever no [qr] event arrives while it waits, and the
    encoder is never asked.  A [ready] event arriving during the wait does
    not turn the answer into the 400 of an authenticated session: readiness
    is read once, on entry. *)
Theorem qr_route_without_code (timers : list (list Event)) (w : World) :
  isReady (manager w) = false ->
  qr (qrCodeState (manager w)) = None ->
  forallb (forallb (fun ev => negb (is_qr ev))) timers = true ->
  exists w',
    qr_route env timers w = (Returned not_available, w') /\
    trace w' = trace w.
Proof.
  intros Hr Hq Ht. unfold qr_route. run_js.
  rewrite Hr, Hq. cbn [is_null negb]. rewrite andb_true_r.
  assert (Hw : exists w1,
             (if isInitializing (manager w) then poll 20 timers
              else fun w0 => (Returned tt, w0)) w = (Returned tt, w1) /\
             trace w1 = trace w /\ qr (qrCodeState (manager w1)) = None).
  { destruct (isInitializing (manager w)).
    - now apply poll_without_qr.
    - now exists w. }
  destruct Hw as [w1 [Hw1 [Ht1 Hq1]]]. rewrite Hw1.
  unfold getQRCodeImage. run_js. rewrite Hq1. cbn [falsy].
  now exists w1.
Qed.

Lemma poll_idle (n k : nat) (rest : list (list Event))
    (m : Manager) (calls : list Call) :
  qr (qrCodeState m) = None ->
  k <= n ->
  poll n (repeat [] k ++ rest)%list {| manager := m; trace := calls |} =
  poll (n - k) rest {| manager := m; trace := calls |}.
Proof.
  intros Hq. revert n; induction k as [|k IH]; intros n Hk.
  - now rewrite Nat.sub_0_r.
  - destruct n as [|n]; [lia|].
    cbn [repeat app poll]. run_js. cbn [manager trace]. rewrite Hq.
    cbn [is_null negb hd tl deliver fold_left].
    apply IH. lia.
Qed.

Lemma poll_arrival (n : nat) (code : string) (now : Z)
    (later : list (list Event)) (m : Manager) (calls : list Call) :
  qr (qrCodeState m) = None ->
  poll (S n) ([Qr code now] :: later) {| manager := m; trace := calls |} =
  (Returned tt, {| manager := dispatch (Qr code now) m; trace := calls |}).
Proof.
  intros Hq. cbn [poll]. run_js. cbn [manager trace]. rewrite Hq.
  cbn [is_null negb hd tl deliver fold_left].
  destruct n as [|n]; [reflexivity|].
  cbn [poll]. run_js. reflexivity.
Qed.

(** X19: The wait lasts at most 20 sleeps.  On an initializing session with no
    code cached, a code that arrives during sleep number [k + 1] is served
    when [k < 20] (the sleeps after it are not taken); when the first 20
    sleeps bring nothing, the answer is 404 and the encoder is not asked,
    whatever arrives later. *)
Theorem qr_route_wait_bound
    (k : nat) (code : string) (now : Z) (later : list (list Event))
    (m : Manager) (calls : list Call) :
  isReady m = false ->
  isInitializing m = true ->
  qr (qrCodeState m) = None ->
  code <> "" ->
  qr_route env (repeat [] k ++ [Qr code now] :: later)%list
    {| manager := m; trace := calls |} =
  if (k <? 20)%nat then
    (match QRCode_toBuffer env code with
     | Returned png => Returned (Png png)
     | Thrown _ => Returned not_available
     end,
     {| manager := dispatch (Qr code now) m;
        trace := (calls ++ [ToBufferCall code])%list |})
  else
    (Returned not_available, {| manager := m; trace := calls |}).
Proof.
  intros Hr Hi Hq Hc. unfold qr_route. run_js. cbn [manager trace].
  rewrite Hr. cbv beta iota. cbn [manager trace].
  rewrite Hi, Hq. cbn [is_null negb andb].
  destruct (k <? 20)%nat eqn:Hk.
  - apply Nat.ltb_lt in Hk.
    rewrite (poll_idle 20 k _ m calls Hq) by lia.
    replace (20 - k) with (S (19 - k)) by lia.
    rewrite (poll_arrival _ code now later m calls Hq).
    unfold getQRCodeImage. run_js. cbn [manager trace dispatch with_qrCodeState
      qrCodeState qr].
    destruct code as [|x code]; [now elim Hc|]. cbn [falsy or_string].
    now destruct (QRCode_toBuffer env (String x code)).
  - apply Nat.ltb_ge in Hk.
    replace k with (20 + (k - 20)) by lia.
    rewrite repeat_app, <- app_assoc.
    rewrite (poll_idle 20 20 _ m calls Hq) by lia.
    cbn [Nat.sub poll]. run_js.
    unfold getQRCodeImage. run_js. cbn [manager]. rewrite Hq. reflexivity.
Qed.

End Wait.

(** ** The POST routes *)

Section PostRoutes.

Variable env : Environment.

(** X20: While the session is not ready, each of the three POST routes answers
    400 whatever the body holds, before looking at it, and leaves the
    manager and the transport untouched. *)
Theorem post_routes_closed_when_not_ready
    (w : World) (message_body : SendMessageRequest) (file_body : SendFileRequest) :
  isReady (manager w) = false ->
  logout_route env w =
    (Returned (ErrorReply 400 "Client is not authenticated" None), w) /\
  send_message_route env message_body w =
    (Returned (ErrorReply 400
                 "Client is not ready. Please authenticate first by scanning QR code."
                 None), w) /\
  send_file_route env file_body w =
    (Returned (Failure 400
                 "Client is not ready. Please authenticate first by scanning QR code."
                 None), w).
Proof.
  intros Hr. unfold logout_route, send_message_route, send_file_route.
  run_js. rewrite Hr. now repeat split.
Qed.

(** X21: On a ready session one logout request asks the transport once; the
    reply is 200 when the transport accepts and 500 with the transport's
    detail when it rejects.  Either way the session is no longer ready, so a
    further logout request is answered 400 and reaches nothing. *)
Theorem logout_route_single_attempt
    (env' : Environment) (w : World) (c : Client) :
  client (manager w) = Some c ->
  isReady (manager w) = true ->
  let after := snd (logout_route env w) in
  fst (logout_route env w) =
    Returned (match transport_logout env with
              | Returned _ => OkReply "Logged out successfully" None
              | Thrown e => ErrorReply 500 "Failed to logout" (Some (details_of e))
              end) /\
  trace after = (trace w ++ [LogoutCall])%list /\
  logout_route env' after =
    (Returned (ErrorReply 400 "Client is not authenticated" None), after).
Proof.
  intros Hc Hr. cbv zeta. unfold logout_route, logout. run_js.
  rewrite Hr. cbn [negb]. cbv beta iota. rewrite Hc. cbn [is_null].
  cbv beta iota.
  destruct (transport_logout env) as [[]|e]; cbn; repeat split.
Qed.

(** X22: On a ready session a send-message request with [phone] or [message]
    missing or empty, or [isGroup] missing, is answered 400 and nothing is
    sent. *)
Theorem send_message_route_rejects_incomplete
    (w : World) (body : SendMessageRequest) :
  isReady (manager w) = true ->
  falsy (msg_phone body) || is_null (msg_isGroup body)
    || falsy (msg_message body) = true ->
  send_message_route env body w =
    (Returned (ErrorReply 400
                 "Missing required fields: phone, isGroup, and message are required"
                 None), w).
Proof.
  intros Hr Hb. unfold send_message_route. run_js.
  rewrite Hr. cbn [negb]. now rewrite Hb.
Qed.

(** X23: On a ready session a send-file request with [phone], [filename] or
    [base64] missing or empty, or [isGroup] missing, is answered 400 and
    nothing is sent; a missing caption is no reason to reject. *)
Theorem send_file_route_rejects_incomplete
    (w : World) (body : SendFileRequest) :
  isReady (manager w) = true ->
  falsy (req_phone body) || is_null (req_isGroup body)
    || falsy (req_filename body) || falsy (req_base64 body) = true ->
  send_file_route env body w =
    (Returned (Failure 400
                 "Missing required fields: phone, isGroup, filename, and base64 are required"
                 None), w).
Proof.
  intros Hr Hb. unfold send_file_route. run_js.
  rewrite Hr. cbn [negb]. now rewrite Hb.
Qed.


Lemma digits_only_none (s : string) :
  all_units non_digit s = true -> digits_only s = "".
Proof.
  induction s as [|x s IH]; [reflexivity|].
  cbn [all_units digits_only]. unfold non_digit at 1.
  intros H. apply andb_true_iff in H as [Hx Hs].
  destruct (is_digit x); [discriminate | now apply IH].
Qed.

(** X25: The route does not check that an individual's phone holds a digit: a
    non-empty phone without any digit passes validation and the message is
    sent to the address ['@c.us']. *)
Theorem send_message_route_degenerate_address
    (w : World) (c : Client) (phone message : string) :
  client (manager w) = Some c ->
  isReady (manager w) = true ->
  phone <> "" -> message <> "" ->
  all_units non_digit phone = true ->
  trace (snd (send_message_route env
                {| msg_phone := Some phone; msg_isGroup := Some false;
                   msg_message := Some message |} w)) =
  (trace w ++ [SendMessageCall "@c.us" (Text message) None])%list.
Proof.
  intros Hc Hr Hp Hm Hd.
  assert (Hid : formatChatId phone false = "@c.us")
    by (unfold formatChatId;
        now rewrite replace_non_digits, (digits_only_none _ Hd)).
  unfold send_message_route, sendMessage. run_js.
  cbn [msg_phone msg_isGroup msg_message].
  rewrite Hr, !or_string_some, (falsy_some _ Hp), (falsy_some _ Hm).
  cbn [negb orb is_null]. cbv beta iota. rewrite Hc, Hr. cbn [negb orb is_null].
  cbv beta iota. rewrite Hid.
  now destruct (transport_sendMessage env _ _ _).
Qed.

(** X26: The route validates the payload before stripping it: a data URI that
    ends right after its marker passes as non-empty, and the file is sent
    with empty content. *)
Theorem send_file_route_empty_content
    (w : World) (c : Client) (phone : string) (isGroup : bool)
    (filename : string) (caption : option string) (prefix : string) :
  client (manager w) = Some c ->
  isReady (manager w) = true ->
  phone <> "" -> filename <> "" ->
  includes prefix "base64," = false ->
  trace (snd (send_file_route env
                {| req_phone := Some phone; req_isGroup := Some isGroup;
                   req_filename := Some filename; req_caption := caption;
                   req_base64 := Some (prefix ++ "base64,") |} w)) =
  (trace w ++
   [SendMessageCall (formatChatId phone isGroup)
      (Media {| media_mimetype := getMimeType filename;
                media_data := Some "";
                media_filename := filename |})
      (Some (caption_or_undefined caption))])%list.
Proof.
  intros Hc Hr Hp Hf Ha.
  rewrite (send_file_route_call env w c) by
    (try assumption; destruct prefix; discriminate).
  replace (prefix ++ "base64,") with (prefix ++ "base64," ++ "") by reflexivity.
  now rewrite (strip_data_uri_once prefix "" Ha eq_refl).
Qed.

(** X8: With the marker once, as in a data URI, everything after the marker is
    what the route forwards. *)
Theorem strip_data_uri_single_marker (prefix content : string) :
  includes prefix "base64," = false ->
  includes content "base64," = false ->
  strip_data_uri (prefix ++ "base64," ++ content) = Some content.
Proof.
  intros Hp Hc. unfold strip_data_uri.
  assert (Hinc : includes (prefix ++ "base64," ++ content) "base64," = true)
    by (apply includes_iff; now exists prefix, content).
  rewrite Hinc. unfold split.
  rewrite (split_from_first_marker prefix _ Hp).
  now rewrite (split_from_absent _ _ Hc).
Qed.

End PostRoutes.

Section SendRoutes.

Variable env : Environment.


(** X28: Whatever the body and whatever the state, the two send routes always
    answer (no exception leaves them), never change a field of the manager
    and call the transport at most once: there is no retry and no second
    send. *)
Theorem send_routes_at_most_one_call
    (w : World) (message_body : SendMessageRequest) (file_body : SendFileRequest) :
  (exists r w',
     send_message_route env message_body w = (Returned r, w') /\
     manager w' = manager w /\
     (trace w' = trace w \/ exists c, trace w' = (trace w ++ [c])%list)) /\
  (exists r w',
     send_file_route env file_body w = (Returned r, w') /\
     manager w' = manager w /\
     (trace w' = trace w \/ exists c, trace w' = (trace w ++ [c])%list)).
Proof.
  split.
  - unfold send_message_route, sendMessage. run_js.
    destruct (isReady (manager w)) eqn:Hr; cbn [negb]; cbv beta iota;
      [|eexists; eexists; split; [reflexivity|]; split; [reflexivity | now left]].
    destruct (falsy (msg_phone message_body) || is_null (msg_isGroup message_body)
              || falsy (msg_message message_body));
      [eexists; eexists; split; [reflexivity|]; split; [reflexivity | now left]|].
    cbv beta iota. rewrite Hr. cbn [negb]. rewrite orb_false_r.
    destruct (is_null (client (manager w)));
      [eexists; eexists; split; [reflexivity|]; split; [reflexivity | now left]|].
    cbv beta iota.
    destruct (transport_sendMessage env _ _ _);
      eexists; eexists; (split; [reflexivity|]); (split; [reflexivity|]);
      right; eexists; reflexivity.
  - unfold send_file_route, sendFile. run_js.
    destruct (isReady (manager w)) eqn:Hr; cbn [negb]; cbv beta iota;
      [|eexists; eexists; split; [reflexivity|]; split; [reflexivity | now left]].
    destruct (falsy (req_phone file_body) || is_null (req_isGroup file_body)
              || falsy (req_filename file_body) || falsy (req_base64 file_body));
      [eexists; eexists; split; [reflexivity|]; split; [reflexivity | now left]|].
    cbv beta iota. rewrite Hr. cbn [negb]. rewrite orb_false_r.
    destruct (is_null (client (manager w)));
      [eexists; eexists; split; [reflexivity|]; split; [reflexivity | now left]|].
    cbv beta iota.
    destruct (transport_sendMessage env _ _ _);
      eexists; eexists; (split; [reflexivity|]); (split; [reflexivity|]);
      right; eexists; reflexivity.
Qed.

End SendRoutes.

(** ** The further properties at concrete inputs *)

Lemma formatChatId_individual_same_digits_witness :
  digits_only "+55 (21) 99999-9999" = digits_only "5521999999999" /\
  formatChatId "+55 (21) 99999-9999" false = formatChatId "5521999999999" false.
Proof.
  split; [reflexivity|].
  apply (proj2 (formatChatId_individual_same_digits
                  "+55 (21) 99999-9999" "5521999999999")).
  reflexivity.
Defined.

Lemma getMimeType_case_insensitive_witness :
  toLowerCase "Photo.JPG" = toLowerCase "photo.jpg" /\
  getMimeType "Photo.JPG" = getMimeType "photo.jpg".
Proof.
  split; [reflexivity|].
  apply (getMimeType_case_insensitive "Photo.JPG" "photo.jpg"). reflexivity.
Defined.

Lemma getMimeType_last_piece_witness :
  includes "zip" "." = false /\
  getMimeType ("backup.2024.tar" ++ "." ++ "zip") = getMimeType "zip".
Proof.
  split; [reflexivity|].
  apply (getMimeType_last_piece "backup.2024.tar" "zip"). reflexivity.
Defined.

Lemma getMimeType_table_entry_witness :
  In (toLowerCase "PDF", "application/pdf") mimeTypes /\
  getMimeType ("report.final" ++ "." ++ "PDF") = VString "application/pdf".
Proof.
  assert (H : In (toLowerCase "PDF", "application/pdf") mimeTypes)
    by (do 7 right; left; reflexivity).
  split; [exact H|].
  exact (getMimeType_table_entry "report.final" "PDF" "application/pdf" H).
Defined.

Lemma strip_data_uri_single_marker_witness :
  strip_data_uri ("data:image/png;" ++ "base64," ++ "iVBORw0KGgo=") =
  Some "iVBORw0KGgo=".
Proof.
  exact (strip_data_uri_single_marker "data:image/png;" "iVBORw0KGgo="
           eq_refl eq_refl).
Defined.

Lemma destroyed_manager_is_inert_witness :
  snd (fst (destroy teardown_accepted authenticated)) = fresh_manager /\
  sendMessage accepting "5521999999999" false "hello"
    {| manager := snd (fst (destroy teardown_accepted authenticated));
       trace := [] |} =
  (Thrown NOT_READY,
   {| manager := snd (fst (destroy teardown_accepted authenticated));
      trace := [] |}).
Proof.
  pose proof (destroyed_manager_is_inert accepting teardown_accepted
                teardown_accepted authenticated 0 tt [] "5521999999999" false
                "hello" "photo.jpg" (Some "AAAA") None eq_refl eq_refl) as H.
  split; [exact (proj1 H) | exact (proj1 (proj2 H))].
Defined.

Lemma failed_destroy_keeps_session_witness :
  fst (fst (destroy teardown_rejected authenticated)) = Returned tt /\
  snd (fst (destroy teardown_rejected authenticated)) = authenticated.
Proof.
  pose proof (failed_destroy_keeps_session accepting teardown_rejected
                authenticated 0 (External "Target closed") []
                "5521999999999" false "hello" eq_refl eq_refl eq_refl) as H.
  split; [exact (proj1 H) | exact (proj1 (proj2 H))].
Defined.

Lemma qr_route_serves_cached_code_witness :
  qr_route rejecting [] {| manager := awaiting_scan; trace := [] |} =
  (Returned not_available,
   {| manager := awaiting_scan; trace := [ToBufferCall "2@Zk4v,pairing"] |}).
Proof.
  exact (qr_route_serves_cached_code rejecting []
           {| manager := awaiting_scan; trace := [] |} "2@Zk4v,pairing"
           eq_refl eq_refl ltac:(discriminate)).
Defined.

Lemma qr_route_empty_code_witness :
  qr_route accepting [] {| manager := dispatch (Qr "" 5) constructed; trace := [] |} =
  (Returned not_available,
   {| manager := dispatch (Qr "" 5) constructed; trace := [] |}).
Proof.
  exact (proj2 (qr_route_empty_code accepting []
                  {| manager := dispatch (Qr "" 5) constructed; trace := [] |}
                  eq_refl eq_refl)).
Defined.

Lemma qr_route_without_code_witness :
  exists w',
    qr_route accepting [[LoadingScreen "40"]; [Authenticated; Ready]]
      {| manager := constructed; trace := [] |} = (Returned not_available, w') /\
    trace w' = [].
Proof.
  exact (qr_route_without_code accepting
           [[LoadingScreen "40"]; [Authenticated; Ready]]
           {| manager := constructed; trace := [] |}
           eq_refl eq_refl eq_refl).
Defined.

Lemma qr_route_wait_bound_witness :
  qr_route accepting (repeat [] 3 ++ [Qr "2@Zk4v,pairing" 7] :: [])%list
    {| manager := constructed; trace := [] |} =
  (Returned (Png []),
   {| manager := dispatch (Qr "2@Zk4v,pairing" 7) constructed;
      trace := [ToBufferCall "2@Zk4v,pairing"] |}).
Proof.
  exact (qr_route_wait_bound accepting 3 "2@Zk4v,pairing" 7 [] constructed []
           eq_refl eq_refl eq_refl ltac:(discriminate)).
Defined.

Lemma post_routes_closed_when_not_ready_witness :
  logout_route accepting {| manager := constructed; trace := [] |} =
  (Returned (ErrorReply 400 "Client is not authenticated" None),
   {| manager := constructed; trace := [] |}).
Proof.
  exact (proj1 (post_routes_closed_when_not_ready accepting
                  {| manager := constructed; trace := [] |}
                  {| msg_phone := Some "5521999999999"; msg_isGroup := Some false;
                     msg_message := Some "hello" |}
                  {| req_phone := None; req_isGroup := None;
                     req_filename := None; req_caption := None;
                     req_base64 := None |}
                  eq_refl)).
Defined.

Lemma logout_route_single_attempt_witness :
  fst (logout_route rejecting {| manager := authenticated; trace := [] |}) =
  Returned (ErrorReply 500 "Failed to logout" (Some "Protocol error")) /\
  logout_route accepting
    (snd (logout_route rejecting {| manager := authenticated; trace := [] |})) =
  (Returned (ErrorReply 400 "Client is not authenticated" None),
   snd (logout_route rejecting {| manager := authenticated; trace := [] |})).
Proof.
  pose proof (logout_route_single_attempt rejecting accepting
                {| manager := authenticated; trace := [] |} 0
                eq_refl eq_refl) as H.
  split; [exact (proj1 H) | exact (proj2 (proj2 H))].
Defined.

Lemma send_message_route_rejects_incomplete_witness :
  send_message_route accepting
    {| msg_phone := Some "5521999999999"; msg_isGroup := None;
       msg_message := Some "hello" |}
    {| manager := authenticated; trace := [] |} =
  (Returned (ErrorReply 400
               "Missing required fields: phone, isGroup, and message are required"
               None),
   {| manager := authenticated; trace := [] |}).
Proof.
  exact (send_message_route_rejects_incomplete accepting
           {| manager := authenticated; trace := [] |}
           {| msg_phone := Some "5521999999999"; msg_isGroup := None;
              msg_message := Some "hello" |}
           eq_refl eq_refl).
Defined.

Lemma send_file_route_rejects_incomplete_witness :
  send_file_route accepting
    {| req_phone := Some "5521999999999"; req_isGroup := Some false;
       req_filename := Some "photo.jpg"; req_caption := None;
       req_base64 := Some "" |}
    {| manager := authenticated; trace := [] |} =
  (Returned (Failure 400
               "Missing required fields: phone, isGroup, filename, and base64 are required"
               None),
   {| manager := authenticated; trace := [] |}).
Proof.
  exact (send_file_route_rejects_incomplete accepting
           {| manager := authenticated; trace := [] |}
           {| req_phone := Some "5521999999999"; req_isGroup := Some false;
              req_filename := Some "photo.jpg"; req_caption := None;
              req_base64 := Some "" |}
           eq_refl eq_refl).
Defined.


Lemma send_message_route_degenerate_address_witness :
  trace (snd (send_message_route accepting
                {| msg_phone := Some "n/a"; msg_isGroup := Some false;
                   msg_message := Some "hello" |}
                {| manager := authenticated; trace := [] |})) =
  [SendMessageCall "@c.us" (Text "hello") None].
Proof.
  exact (send_message_route_degenerate_address accepting
           {| manager := authenticated; trace := [] |} 0 "n/a" "hello"
           eq_refl eq_refl ltac:(discriminate) ltac:(discriminate) eq_refl).
Defined.

Lemma send_file_route_empty_content_witness :
  trace (snd (send_file_route accepting
                {| req_phone := Some "5521999999999"; req_isGroup := Some false;
                   req_filename := Some "photo.png"; req_caption := Some "";
                   req_base64 := Some ("data:image/png;" ++ "base64,") |}
                {| manager := authenticated; trace := [] |})) =
  [SendMessageCall "5521999999999@c.us"
     (Media {| media_mimetype := VString "image/png";
               media_data := Some "";
               media_filename := "photo.png" |})
     (Some None)].
Proof.
  exact (send_file_route_empty_content accepting
           {| manager := authenticated; trace := [] |} 0
           "5521999999999" false "photo.png" (Some "") "data:image/png;"
           eq_refl eq_refl ltac:(discriminate) ltac:(discriminate) eq_refl).
Defined.

